(** * vaxtldr: the inference pipeline of [data/inference.py]

    A shallow embedding of the whole-collection transforms of
    [src/data/inference.py] and the properties its specification states
    about them.

    Modelling conventions.
    - A [datetime.date] is its proleptic Gregorian ordinal, a [Z]
      ([date.toordinal()]); a [timedelta] is a number of days.  The year
      range of Python dates (1..9999) is not modelled.
    - A count ([Vaccinated.vaccinated]) is a Python number, and the source
      works on whatever numbers it is given (ints in the reports, floats in
      the forecasts).  The functions are therefore written over an interface
      of numbers, [Arith], in which the arithmetic of ints is exact.  It has
      two instances: [python_arith], ints and binary64 floats with Python's
      mixed arithmetic, and [exact_arith], the rationals, in which nothing
      is rounded.  An observation is a [Vaccinated num], for the type [num]
      of the counts.
    - In [python_arith] an int beyond the range of floats becomes an
      infinity where Python raises [OverflowError] (when it meets a float,
      or as the quotient of two ints), and a float64 of numpy is taken as a
      float of Python.
    - An exception is a value of [exn]; fallible code returns a [result].
      [print] appends to a list of diagnostics that is returned with the
      value.  [assert] is taken as enabled.
    - A generator is the list of what it yields; the callers pass lists, as
      the annotations say.
    - The list a function receives, which the source calls [vaccinated] like
      the count field, is called [input].
    - Iterating a Python [set] visits every element once, in an order the
      language leaves open: the order is a parameter ([SetOrder]).
    - [numpy.polyfit] is external: it is a parameter ([Polyfit]). *)

From Stdlib Require Import ZArith QArith Qcanon Lqa.
From Stdlib Require PrimFloat SpecFloat FloatOps.
From stdpp Require Import base decidable option list sorting numbers strings gmap.

Local Open Scope Z_scope.

(** ** Exceptions and results *)

Inductive exn :=
  | AssertionError | ZeroDivisionError | IndexError | ValueError
  | OverflowError.

Inductive result (A : Type) :=
  | Ok (a : A)
  | Raise (e : exn).
Arguments Ok {A} a.
Arguments Raise {A} e.

Global Instance result_ret : MRet result := λ A a, Ok a.
Global Instance result_bind : MBind result := λ A B k r,
  match r with
  | Ok a => k a
  | Raise e => Raise e
  end.

(** A [for] loop whose body may raise, threading the loop's state. *)
Fixpoint for_each {A S} (l : list A) (body : A → S → result S) (s : S)
  : result S :=
  match l with
  | [] => Ok s
  | x :: l' => s' ← body x s; for_each l' body s'
  end.

(** A generator body run once per element, collecting what it yields. *)
Fixpoint yield_each {A B} (f : A → result B) (l : list A) : result (list B) :=
  match l with
  | [] => Ok []
  | x :: l' => y ← f x; ys ← yield_each f l'; Ok (y :: ys)
  end.

(** [l[i]] *)
Definition index {A} (l : list A) (i : nat) : result A :=
  match l !! i with
  | Some x => Ok x
  | None => Raise IndexError
  end.

(** ** Dates *)

(** A date is written [date] and is an integer. *)
Abbreviation date := Z (only parsing).

Definition is_leap (y : Z) : bool :=
  (y mod 4 =? 0) && (negb (y mod 100 =? 0) || (y mod 400 =? 0)).

Definition days_before_year (y : Z) : Z :=
  let y1 := y - 1 in y1 * 365 + y1 / 4 - y1 / 100 + y1 / 400.

Definition days_before_month (y m : Z) : Z :=
  nth (Z.to_nat (m - 1)) [0; 31; 59; 90; 120; 151; 181; 212; 243; 273; 304; 334] 0
  + (if (2 <? m) && is_leap y then 1 else 0).

(** [date(y, m, d).toordinal()] *)
Definition mkdate (y m d : Z) : date :=
  days_before_year y + days_before_month y m + d.

Definition timedelta_days (n : Z) : Z := n.
Definition timedelta_weeks (n : Z) : Z := 7 * n.

(** [__FIRST_DAILY_DATA = date(2021, 1, 9)] *)
Definition FIRST_DAILY_DATA : date := mkdate 2021 1 9.

(** [max(l)]; [ValueError] on an empty sequence. *)
Definition max_of (l : list date) : result date :=
  match l with
  | [] => Raise ValueError
  | d :: l' => Ok (foldl Z.max d l')
  end.

(** ** Numbers *)

(** The numbers of Python as the source uses them.  [num_div] is [a / b] for
    a divisor that is not zero, [num_is_zero] the test under which [/]
    raises, [num_int] is [int(a)], [num_0_05] the literal [0.05].  The laws
    say that ints are exact. *)
Class Arith := {
  num : Type;
  num_of_Z : Z → num;
  num_add : num → num → num;
  num_sub : num → num → num;
  num_mul : num → num → num;
  num_div : num → num → num;
  num_lt : num → num → bool;
  num_is_zero : num → bool;
  num_abs : num → num;
  num_int : num → result Z;
  num_0_05 : num;
  num_add_of_Z : ∀ a b, num_add (num_of_Z a) (num_of_Z b) = num_of_Z (a + b);
  num_sub_of_Z : ∀ a b, num_sub (num_of_Z a) (num_of_Z b) = num_of_Z (a - b);
  num_lt_of_Z : ∀ a b, num_lt (num_of_Z a) (num_of_Z b) = bool_decide (a < b);
  num_is_zero_of_Z : ∀ a, num_is_zero (num_of_Z a) = bool_decide (a = 0);
}.

(** [a / b] *)
Definition truediv `{Arith} (a b : num) : result num :=
  if num_is_zero b then Raise ZeroDivisionError else Ok (num_div a b).

(** [max(a, b)]: the first argument unless the second is greater. *)
Definition num_max `{Arith} (a b : num) : num := if num_lt a b then b else a.

(** [sum(xs)], from the int 0, left to right. *)
Definition sum `{Arith} (xs : list num) : num := foldl num_add (num_of_Z 0) xs.

(** ** The data model of [data.types] *)

(** Modelled from the spec: the enumeration [Dose] of [data.types], a closed
    vocabulary with the members the source names and the wildcard. *)
Inductive Dose := Dose_ALL | DOSE_1 | DOSE_2 | DOSE_2_PLUS_WAIT.

(** Modelled from the spec: the enumeration [Group] of [data.types], of which
    only the wildcard is named; every other member is told by its name. *)
Inductive Group := Group_ALL | Group_of (name : string).

(** Modelled from the spec: the enumeration [Location] of [data.types]. *)
Inductive Location := Location_ALL | Location_of (name : string).

(** Modelled from the spec: [Slice], the dimensional key, compared by value. *)
Record Slice := mkSlice {
  dose : Dose;
  group : Group;
  location : Location;
}.

(** Modelled from the spec: [Source]; its first field is the provenance that
    [add_extrapolations] sets to ["prediction"]. *)
Record Source := mkSource {
  origin : string;
  data_date : date;
  real_date : date;
  period : string;
}.

(** Modelled from the spec: [Vaccinated], the observation; both flags default
    to [False] when the constructor is called without them. *)
Record Vaccinated (num : Type) := mkVaccinated {
  source : Source;
  vaccinated : num;
  slice : Slice;
  extrapolated : bool;
  interpolated : bool;
}.
Arguments mkVaccinated {num} source vaccinated slice extrapolated interpolated.
Arguments source {num} v.
Arguments vaccinated {num} v.
Arguments slice {num} v.
Arguments extrapolated {num} v.
Arguments interpolated {num} v.

Global Instance exn_eq_dec : EqDecision exn.
Proof. solve_decision. Defined.
Global Instance Dose_eq_dec : EqDecision Dose.
Proof. solve_decision. Defined.
Global Instance Group_eq_dec : EqDecision Group.
Proof. solve_decision. Defined.
Global Instance Location_eq_dec : EqDecision Location.
Proof. solve_decision. Defined.
Global Instance Slice_eq_dec : EqDecision Slice.
Proof. solve_decision. Defined.
Global Instance Source_eq_dec : EqDecision Source.
Proof. solve_decision. Defined.

Global Instance Group_countable : Countable Group.
Proof.
  refine (inj_countable'
    (λ g, match g with Group_ALL => None | Group_of s => Some s end)
    (λ o, match o with None => Group_ALL | Some s => Group_of s end) _).
  by intros [].
Defined.
Global Instance Location_countable : Countable Location.
Proof.
  refine (inj_countable'
    (λ g, match g with Location_ALL => None | Location_of s => Some s end)
    (λ o, match o with None => Location_ALL | Some s => Location_of s end) _).
  by intros [].
Defined.

(** The three slice dimensions, [__SLICE_DIMS]. *)
Inductive Dim := dim_dose | dim_group | dim_location.
Global Instance Dim_eq_dec : EqDecision Dim.
Proof. solve_decision. Defined.

Definition SLICE_DIMS : list Dim := [dim_dose; dim_group; dim_location].

(** The value of a slice attribute, whatever its dimension. *)
Inductive DimValue :=
  | VDose (d : Dose)
  | VGroup (g : Group)
  | VLocation (l : Location).
Global Instance DimValue_eq_dec : EqDecision DimValue.
Proof. solve_decision. Defined.

(** [getattr(slice, dim)] *)
Definition getattr (s : Slice) (dim : Dim) : DimValue :=
  match dim with
  | dim_dose => VDose (dose s)
  | dim_group => VGroup (group s)
  | dim_location => VLocation (location s)
  end.

(** Modelled from the spec: [x.is_all()], which tells the wildcard member of
    a dimension. *)
Definition is_all (x : DimValue) : bool :=
  match x with
  | VDose Dose_ALL | VGroup Group_ALL | VLocation Location_ALL => true
  | _ => false
  end.

(** [replace(slice, **{dim: x})]; [x] is always a value read with
    [getattr(_, dim)], so the other combinations do not occur. *)
Definition replace_dim (s : Slice) (dim : Dim) (x : DimValue) : Slice :=
  match dim, x with
  | dim_dose, VDose d => mkSlice d (group s) (location s)
  | dim_group, VGroup g => mkSlice (dose s) g (location s)
  | dim_location, VLocation l => mkSlice (dose s) (group s) l
  | _, _ => s
  end.

(** ** Iteration order of sets *)

Class SetOrder := {
  set_iter : ∀ {A} `{EqDecision A}, list A → list A;
  set_iter_NoDup : ∀ {A} `{EqDecision A} (l : list A), NoDup (set_iter l);
  set_iter_elem : ∀ {A} `{EqDecision A} (l : list A) (x : A),
    x ∈ set_iter l ↔ x ∈ l;
}.

(** One possible order: that of the last occurrence of each element. *)
Definition insertion_order : SetOrder :=
  {| set_iter := λ A _ l, remove_dups l;
     set_iter_NoDup := λ A _ l, NoDup_remove_dups l;
     set_iter_elem := λ A _ l x, elem_of_remove_dups l x |}.

(** ** Sorting: [sorted(l, key=key)], which is stable *)

Fixpoint insert_by {A} (key : A → Z) (x : A) (l : list A) : list A :=
  match l with
  | [] => [x]
  | y :: l' => if key x <=? key y then x :: l else y :: insert_by key x l'
  end.

Definition sorted {A} (key : A → Z) (l : list A) : list A :=
  foldr (insert_by key) [] l.

(** ** [numpy.polyfit(x, y, 1)], which returns the slope and the intercept *)

Class Polyfit `{Arith} := {
  polyfit : list (Z * num) → num * num;
}.

(** ** Copy-with-modification, [dataclasses.replace] *)

Definition replace_vaccinated `{Arith} (v : Vaccinated num) (x : num)
  : Vaccinated num :=
  mkVaccinated (source v) x (slice v) (extrapolated v) (interpolated v).

Definition replace_real_date (s : Source) (d : date) : Source :=
  mkSource (origin s) (data_date s) d (period s).

Definition replace_dose (s : Slice) (d : Dose) : Slice :=
  mkSlice d (group s) (location s).

(** ** Diagnostics printed by the deaggregator *)

Inductive Diagnostic :=
  | FailedToInterpolate (s : Slice) (real : date) (samples : nat).

Definition other_dims (dim : Dim) : list Dim :=
  filter (λ d, d ≠ dim) SLICE_DIMS.

Declare Scope num_scope.
Delimit Scope num_scope with num.
Infix "+" := num_add : num_scope.
Infix "-" := num_sub : num_scope.
Infix "*" := num_mul : num_scope.

(** ** [deaggregate_with_interpolation] *)

(** The weekly observations that are not wildcard on [dim] and agree with the
    aggregate on the other dimensions. *)
Definition vaccinated_weekly_of `{Arith} (aggregate : Vaccinated num) (dim : Dim)
    (input : list (Vaccinated num)) : list (Vaccinated num) :=
  filter (λ v, period (source v) = "weekly"
             ∧ is_all (getattr (slice v) dim) = false
             ∧ Forall (λ other_dim,
                 getattr (slice v) other_dim
                 = getattr (slice aggregate) other_dim) (other_dims dim))
    input.

(** [sum(v for d, ddate, v in rows if ddate == dates[i] and p(d))]: [dates[i]]
    is evaluated at each row, so it is not evaluated when there is none. *)
Definition sum_on `{Arith} (rows : list (DimValue * date * num))
    (dates : list date) (i : nat) (p : DimValue → bool) : result num :=
  match rows with
  | [] => Ok (num_of_Z 0)
  | _ :: _ =>
      t ← index dates i;
      Ok (sum ((λ r, r.2) <$> filter (λ r, r.1.2 = t ∧ p r.1.1 = true) rows))
  end.

(** The share of [dim_value] among the rows of [dates[i]]. *)
Definition ratio_at `{Arith} (rows : list (DimValue * date * num))
    (dates : list date) (i : nat) (dim_value : DimValue) : result num :=
  part ← sum_on rows dates i (λ d, bool_decide (d = dim_value));
  total ← sum_on rows dates i (λ _, true);
  truediv part total.

Definition deaggregate_with_interpolation `{Arith} `{SetOrder}
    (aggregate : Vaccinated num) (dim : Dim) (input : list (Vaccinated num))
  : result (list Diagnostic * list (Vaccinated num)) :=
  let vaccinated_weekly := vaccinated_weekly_of aggregate dim input in
  if (length vaccinated_weekly <? 2)%nat then
    Ok ([FailedToInterpolate (slice aggregate) (real_date (source aggregate))
           (length vaccinated_weekly)], [])
  else
    let dates :=
      sorted (λ d, Z.abs (d - real_date (source aggregate)))
        (set_iter ((λ v, real_date (source v)) <$> vaccinated_weekly)) in
    let dates := take 2 dates in
    let dates := sorted (λ d, d) dates in
    let dim_date_vaccinated :=
      (λ v, (getattr (slice v) dim, real_date (source v), vaccinated v))
        <$> filter (λ v, real_date (source v) ∈ dates) vaccinated_weekly in
    yielded ← yield_each (λ dim_value,
        ratio0 ← ratio_at dim_date_vaccinated dates 0 dim_value;
        ratio1 ← ratio_at dim_date_vaccinated dates 1 dim_value;
        date1 ← index dates 1;
        date0 ← index dates 0;
        ratio_delta_per_day ← truediv (ratio1 - ratio0)%num
                                 (num_of_Z (date1 - date0));
        date0' ← index dates 0;
        let ratio :=
          (ratio0 + ratio_delta_per_day
                    * num_of_Z (data_date (source aggregate) - date0'))%num in
        count ← num_int (vaccinated aggregate * ratio)%num;
        Ok (mkVaccinated (source aggregate) (num_of_Z count)
              (replace_dim (slice aggregate) dim dim_value)
              false true))
      (set_iter ((λ v, getattr (slice v) dim) <$> vaccinated_weekly));
    Ok ([], yielded).

(** ** [add_deaggregates] *)

(** The observations of the date that the loop takes for the aggregate's
    peers ([unaggregates]). *)
Definition unaggregates_of `{Arith} (aggregate : Vaccinated num) (dim : Dim)
    (vaccinated_on_date : list (Vaccinated num)) : list (Vaccinated num) :=
  filter (λ v, is_all (getattr (slice v) dim) = false
             ∧ Forall (λ other_dim,
                 getattr (slice v) other_dim
                 = getattr (slice aggregate) other_dim
                 ∧ is_all (getattr (slice v) other_dim) = false)
                 (other_dims dim)
             ∧ group (slice v) = group (slice aggregate)
             ∧ location (slice v) = location (slice aggregate))
    vaccinated_on_date.

(** The [assert] on an aggregate and its peers; the division is evaluated
    only when the difference is not below 1000. *)
Definition check_unaggregates `{Arith} (aggregate : Vaccinated num)
    (unaggregates : list (Vaccinated num)) : result unit :=
  let unaggregate_sum := sum (vaccinated <$> unaggregates) in
  let difference := num_abs (vaccinated aggregate - unaggregate_sum)%num in
  if num_lt difference (num_of_Z 1000) then Ok ()
  else
    share ← truediv difference unaggregate_sum;
    if num_lt share num_0_05 then Ok () else Raise AssertionError.

(** The body of the innermost loop, on the printed diagnostics and the
    [deaggregates] collected so far. *)
Definition deaggregate_step `{Arith} `{SetOrder} (input : list (Vaccinated num))
    (dim : Dim) (vaccinated_on_date : list (Vaccinated num)) (aggregate : Vaccinated num)
    (st : list Diagnostic * list (Vaccinated num))
  : result (list Diagnostic * list (Vaccinated num)) :=
  let unaggregates := unaggregates_of aggregate dim vaccinated_on_date in
  if (length unaggregates =? 0)%nat then
    r ← deaggregate_with_interpolation aggregate dim input;
    Ok (st.1 ++ r.1, st.2 ++ r.2)
  else
    _ ← check_unaggregates aggregate unaggregates;
    Ok st.

Definition add_deaggregates `{Arith} `{SetOrder} (input : list (Vaccinated num))
  : result (list Diagnostic * list (Vaccinated num)) :=
  let vaccinated_daily :=
    filter (λ v, period (source v) = "daily") input in
  st ← for_each SLICE_DIMS (λ dim,
      for_each (set_iter ((λ v, real_date (source v)) <$> vaccinated_daily))
        (λ real_date_,
          let vaccinated_on_date :=
            filter (λ v, real_date (source v) = real_date_) vaccinated_daily in
          let aggregates :=
            filter (λ v, is_all (getattr (slice v) dim) = true)
              vaccinated_on_date in
          for_each aggregates
            (deaggregate_step input dim vaccinated_on_date)))
    ([], []);
  Ok (st.1, input ++ st.2).

(** ** [remove_aggregates] *)

Definition remove_aggregates `{Arith} (input : list (Vaccinated num))
  : list (Vaccinated num) :=
  v ← input;
  if is_all (VGroup (group (slice v))) || is_all (VDose (dose (slice v)))
  then []
  else if negb (is_all (VLocation (location (slice v)))) then []
  else if (FIRST_DAILY_DATA <=? real_date (source v))
          && bool_decide (period (source v) = "weekly") then []
  else [v].

(** ** [make_non_cumulative] and [make_cumulative] *)

Definition by_real_date `{Arith} (v : Vaccinated num) : Z := real_date (source v).

Definition make_non_cumulative `{Arith} `{SetOrder} (input : list (Vaccinated num))
  : result (list (Vaccinated num)) :=
  let slices := set_iter (slice <$> input) in
  yielded ← yield_each (λ slice_,
      let vs := filter (λ v, slice v = slice_) input in
      let vs := sorted by_real_date vs in
      v0 ← index vs 0;
      Ok (v0 :: zip_with (λ v1 v2,
                  replace_vaccinated v2 (vaccinated v2 - vaccinated v1)%num)
                vs (tail vs)))
    slices;
  Ok (concat yielded).

(** The inner loop of [make_cumulative], from the running total. *)
Fixpoint accumulate `{Arith} (cumulative : num) (vs : list (Vaccinated num))
  : list (Vaccinated num) :=
  match vs with
  | [] => []
  | v :: vs' =>
      let cumulative := (cumulative + vaccinated v)%num in
      replace_vaccinated v cumulative :: accumulate cumulative vs'
  end.

Definition make_cumulative `{Arith} `{SetOrder} (input : list (Vaccinated num))
  : list (Vaccinated num) :=
  let slices := set_iter (slice <$> input) in
  slice_ ← slices;
  let vs := filter (λ v, slice v = slice_) input in
  let vs := sorted by_real_date vs in
  accumulate (num_of_Z 0) vs.

(** ** [add_extrapolations] *)

(** [range(1, 52)] *)
Definition range_1_52 : list Z := Z.of_nat <$> seq 1 51.

Definition add_extrapolations `{Arith} `{SetOrder} `{!Polyfit}
    (input : list (Vaccinated num)) : result (list (Vaccinated num)) :=
  max_date ← max_of ((λ v, real_date (source v)) <$> input);
  let predictions :=
    slice_ ← set_iter (slice <$> input);
    let array :=
      (λ v, (real_date (source v) - max_date, vaccinated v))
        <$> filter (λ v, slice v = slice_
                       ∧ max_date - timedelta_days 7 < real_date (source v))
              input in
    if (length array <=? 1)%nat then []
    else
      let '(m, b) := polyfit array in
      (λ plus_weeks,
         let real_date_ := max_date + timedelta_weeks plus_weeks in
         mkVaccinated (mkSource "prediction" real_date_ real_date_ "daily")
           (m * num_of_Z plus_weeks * num_of_Z 7 + b)%num
           slice_ true false) <$> range_1_52 in
  Ok (input ++ predictions).

(** ** [add_12w_dose_lag] *)

Definition dose1s_by_date_slice_of `{Arith} (input : list (Vaccinated num))
  : gmap (date * Location * Group) num :=
  foldl (λ m v,
      <[(real_date (source v), location (slice v), group (slice v))
        := vaccinated v]> m)
    ∅ (filter (λ v, dose (slice v) = DOSE_1) input).

Definition add_12w_dose_lag `{Arith} (input : list (Vaccinated num))
  : list (Vaccinated num) :=
  let dose1s_by_date_slice := dose1s_by_date_slice_of input in
  (λ v,
     if decide (dose (slice v) ≠ DOSE_2) then v
     else
       let dose2 := v in
       let dose1_date := real_date (source dose2) - timedelta_weeks 12 in
       let key := (dose1_date, location (slice dose2), group (slice dose2)) in
       match dose1s_by_date_slice !! key with
       | None => v
       | Some dose1 =>
           mkVaccinated (source dose2) (num_max (vaccinated dose2) dose1)
             (slice dose2) true (interpolated dose2)
       end) <$> input.

(** ** [add_dose_2_wait] *)

Definition add_dose_2_wait `{Arith} (input : list (Vaccinated num))
  : result (list (Vaccinated num)) :=
  max_date ← max_of ((λ v, real_date (source v))
                       <$> filter (λ v, extrapolated v = false) input);
  let dose_2_wait :=
    v ← input;
    if decide (dose (slice v) ≠ DOSE_2) then []
    else
      let wait_date := real_date (source v) + timedelta_days 7 in
      [mkVaccinated (replace_real_date (source v) wait_date)
         (vaccinated v)
         (replace_dose (slice v) DOSE_2_PLUS_WAIT)
         (bool_decide (max_date < wait_date))
         (interpolated v)] in
  Ok (input ++ dose_2_wait).

(** ** Python's numbers: ints and binary64 floats *)

Inductive number :=
  | Int (z : Z)
  | Float (f : PrimFloat.float).

Definition SF_of_Z (z : Z) : SpecFloat.spec_float :=
  match z with
  | Z0 => SpecFloat.S754_zero false
  | Zpos p => SpecFloat.S754_finite false p 0
  | Zneg p => SpecFloat.S754_finite true p 0
  end.

(** [float(z)]: the nearest float, ties to even.  Beyond the range of
    floats (above 1.8e308) the result here is an infinity, where Python
    raises [OverflowError]. *)
Definition float_of_Z (z : Z) : PrimFloat.float :=
  FloatOps.SF2Prim
    (SpecFloat.binary_normalize FloatOps.prec FloatOps.emax z 0 false).

(** [a / b] on two ints: the float nearest to the quotient. *)
Definition int_truediv (a b : Z) : PrimFloat.float :=
  FloatOps.SF2Prim
    (SpecFloat.SFdiv FloatOps.prec FloatOps.emax (SF_of_Z a) (SF_of_Z b)).

Definition to_float (x : number) : PrimFloat.float :=
  match x with
  | Int z => float_of_Z z
  | Float f => f
  end.

Definition py_add (x y : number) : number :=
  match x, y with
  | Int a, Int b => Int (a + b)
  | _, _ => Float (PrimFloat.add (to_float x) (to_float y))
  end.

Definition py_sub (x y : number) : number :=
  match x, y with
  | Int a, Int b => Int (a - b)
  | _, _ => Float (PrimFloat.sub (to_float x) (to_float y))
  end.

Definition py_mul (x y : number) : number :=
  match x, y with
  | Int a, Int b => Int (a * b)
  | _, _ => Float (PrimFloat.mul (to_float x) (to_float y))
  end.

Definition py_div (x y : number) : number :=
  match x, y with
  | Int a, Int b => Float (int_truediv a b)
  | _, _ => Float (PrimFloat.div (to_float x) (to_float y))
  end.

(** An int against a float, compared by value as Python does; nothing for a
    NaN. *)
Definition Z_compare_float (z : Z) (f : PrimFloat.float) : option comparison :=
  match FloatOps.Prim2SF f with
  | SpecFloat.S754_nan => None
  | SpecFloat.S754_infinity s => Some (if s then Gt else Lt)
  | SpecFloat.S754_zero _ => Some (z ?= 0)
  | SpecFloat.S754_finite s m e =>
      let m' := if s then Zneg m else Zpos m in
      Some (if 0 <=? e then z ?= m' * 2 ^ e else z * 2 ^ (- e) ?= m')
  end.

Definition py_lt (x y : number) : bool :=
  match x, y with
  | Int a, Int b => a <? b
  | Float f, Float g => PrimFloat.ltb f g
  | Int a, Float g =>
      match Z_compare_float a g with Some Lt => true | _ => false end
  | Float f, Int b =>
      match Z_compare_float b f with Some Gt => true | _ => false end
  end.

Definition py_is_zero (x : number) : bool :=
  match x with
  | Int z => z =? 0
  | Float f => PrimFloat.eqb f PrimFloat.zero
  end.

Definition py_abs (x : number) : number :=
  match x with
  | Int z => Int (Z.abs z)
  | Float f => Float (PrimFloat.abs f)
  end.

(** [int(x)]: truncation toward zero; a NaN and the infinities raise. *)
Definition py_int (x : number) : result Z :=
  match x with
  | Int z => Ok z
  | Float f =>
      match FloatOps.Prim2SF f with
      | SpecFloat.S754_nan => Raise ValueError
      | SpecFloat.S754_infinity _ => Raise OverflowError
      | SpecFloat.S754_zero _ => Ok 0
      | SpecFloat.S754_finite s m e =>
          let n := if 0 <=? e then Zpos m * 2 ^ e else Zpos m / 2 ^ (- e) in
          Ok (if s then - n else n)
      end
  end.

Lemma Z_ltb_bool_decide (a b : Z) : (a <? b) = bool_decide (a < b).
Proof.
  destruct (Z.ltb_spec a b).
  - by rewrite bool_decide_eq_true_2.
  - by rewrite bool_decide_eq_false_2 by lia.
Qed.

Lemma Z_eqb_bool_decide (a b : Z) : (a =? b) = bool_decide (a = b).
Proof.
  destruct (Z.eqb_spec a b).
  - by rewrite bool_decide_eq_true_2.
  - by rewrite bool_decide_eq_false_2.
Qed.

(** The literal [0.05]: the float nearest to 1/20. *)
Definition float_0_05 : PrimFloat.float := int_truediv 1 20.

Definition python_arith : Arith :=
  {| num := number;
     num_of_Z := Int;
     num_add := py_add;
     num_sub := py_sub;
     num_mul := py_mul;
     num_div := py_div;
     num_lt := py_lt;
     num_is_zero := py_is_zero;
     num_abs := py_abs;
     num_int := py_int;
     num_0_05 := Float float_0_05;
     num_add_of_Z := λ a b, eq_refl;
     num_sub_of_Z := λ a b, eq_refl;
     num_lt_of_Z := Z_ltb_bool_decide;
     num_is_zero_of_Z := λ a, Z_eqb_bool_decide a 0 |}.

(** ** Exact numbers: the rationals *)

(** [int(x)]: truncation toward zero. *)
Definition Qc_int (x : Qc) : Z := Z.quot (Qnum x) (Zpos (Qden x)).

Lemma Qc_lt_of_Z (a b : Z) :
  bool_decide (Qc_of_Z a < Qc_of_Z b)%Qc = bool_decide (a < b).
Proof. apply bool_decide_ext. symmetry. apply Z2Qc_inj_lt. Qed.

Lemma Qc_is_zero_of_Z (a : Z) :
  bool_decide (Qc_of_Z a = 0%Qc) = bool_decide (a = 0).
Proof. apply bool_decide_ext. by rewrite <- Z2Qc_inj_0, Z2Qc_inj_iff. Qed.

Definition exact_arith : Arith :=
  {| num := Qc;
     num_of_Z := Qc_of_Z;
     num_add := Qcplus;
     num_sub := Qcminus;
     num_mul := Qcmult;
     num_div := Qcdiv;
     num_lt := λ a b, bool_decide (a < b)%Qc;
     num_is_zero := λ a, bool_decide (a = 0%Qc);
     num_abs := λ a, if decide (a < 0)%Qc then (- a)%Qc else a;
     num_int := λ a, Ok (Qc_int a);
     num_0_05 := Q2Qc (5 # 100);
     num_add_of_Z := λ a b, eq_sym (Z2Qc_inj_add a b);
     num_sub_of_Z := λ a b, eq_sym (Z2Qc_inj_sub a b);
     num_lt_of_Z := Qc_lt_of_Z;
     num_is_zero_of_Z := Qc_is_zero_of_Z |}.

(** ** The least-squares line, in exact arithmetic *)

(** [(m, b)] satisfies the normal equations of the points: the residuals
    [m x + b - y] sum to zero, and so do the residuals weighted by [x]. *)
Definition normal_equations (pts : list (Z * Qc)) (mb : Qc * Qc) : Prop :=
  @sum exact_arith ((λ p, mb.1 * Qc_of_Z p.1 + mb.2 - p.2)%Qc <$> pts) = 0%Qc
  ∧ @sum exact_arith
      ((λ p, Qc_of_Z p.1 * (mb.1 * Qc_of_Z p.1 + mb.2 - p.2))%Qc <$> pts)
    = 0%Qc.

(** The contract of [numpy.polyfit] of degree 1 in exact arithmetic: the
    line it returns is the least-squares line, which the normal equations
    determine as soon as two abscissas differ. *)
Class LeastSquares (fit : @Polyfit exact_arith) : Prop := {
  polyfit_normal : ∀ pts x1 x2,
    x1 ∈ pts.*1 → x2 ∈ pts.*1 → x1 ≠ x2 →
    normal_equations pts (@polyfit exact_arith fit pts);
}.

(** The closed form of the line, in any arithmetic. *)
Definition closed_form_line `{Arith} (pts : list (Z * num)) : num * num :=
  let n := num_of_Z (Z.of_nat (length pts)) in
  let sx := sum ((λ p, num_of_Z p.1) <$> pts) in
  let sy := sum ((λ p, p.2) <$> pts) in
  let sxx := sum ((λ p, num_of_Z p.1 * num_of_Z p.1)%num <$> pts) in
  let sxy := sum ((λ p, num_of_Z p.1 * p.2)%num <$> pts) in
  let m := num_div (n * sxy - sx * sy)%num (n * sxx - sx * sx)%num in
  let b := num_div (sy - m * sx)%num n in
  (m, b).

Definition closed_form_polyfit `{Arith} : Polyfit :=
  {| polyfit := closed_form_line |}.

(** The sum of integers, to reason about the abscissas in [Z]. *)
Definition zsum (xs : list Z) : Z := foldr Z.add 0 xs.

(** [n Σx² - (Σx)²], the denominator of the slope, over the integers. *)
Definition spread (xs : list Z) : Z :=
  Z.of_nat (length xs) * zsum ((λ x, x * x) <$> xs) - zsum xs * zsum xs.

(** ** Predicates of the specification *)

(** What the specification says the Aggregate Suppressor retains: dose and
    group both given, location wildcard, and not a weekly record on or after
    the cutover date 2021-01-09. *)
Definition retained `{Arith} (v : Vaccinated num) : Prop :=
  is_all (VDose (dose (slice v))) = false
  ∧ is_all (VGroup (group (slice v))) = false
  ∧ is_all (VLocation (location (slice v))) = true
  ∧ ¬ (period (source v) = "weekly" ∧ mkdate 2021 1 9 ≤ real_date (source v)).

Global Instance retained_dec `{Arith} v : Decision (retained v).
Proof. unfold retained. apply _. Defined.

(** A dose-1 observation dated exactly 12 weeks (84 days) before [dose2], at
    the same location and group. *)
Definition dose1_12w_before `{Arith} (dose2 v : Vaccinated num) : Prop :=
  dose (slice v) = DOSE_1
  ∧ real_date (source v) = real_date (source dose2) - 84
  ∧ location (slice v) = location (slice dose2)
  ∧ group (slice v) = group (slice dose2).

Global Instance dose1_12w_before_dec `{Arith} dose2 v :
  Decision (dose1_12w_before dose2 v).
Proof. unfold dose1_12w_before. apply _. Defined.

(** [d] is the latest of the dates [ds]. *)
Definition latest (d : date) (ds : list date) : Prop :=
  d ∈ ds ∧ ∀ d', d' ∈ ds → d' ≤ d.

(** The real dates of a list of observations. *)
Definition real_dates `{Arith} (vs : list (Vaccinated num)) : list date :=
  (λ v, real_date (source v)) <$> vs.

(** The real dates of the observations that are not extrapolated. *)
Definition non_extrapolated_dates `{Arith} (input : list (Vaccinated num))
  : list date :=
  (λ v, real_date (source v)) <$> filter (λ v, extrapolated v = false) input.

(** First-differences of a series: the first observation as it is, every
    later one with the count of its predecessor subtracted. *)
Fixpoint differences `{Arith} (previous : num) (vs : list (Vaccinated num))
  : list (Vaccinated num) :=
  match vs with
  | [] => []
  | v :: vs' =>
      replace_vaccinated v (vaccinated v - previous)%num
      :: differences (vaccinated v) vs'
  end.

Definition first_differences `{Arith} (vs : list (Vaccinated num)) : list (Vaccinated num) :=
  match vs with
  | [] => []
  | v :: vs' => v :: differences (vaccinated v) vs'
  end.

(** The observations of a slice in ascending order of real date. *)
Definition series `{Arith} (input : list (Vaccinated num)) (slice_ : Slice)
  : list (Vaccinated num) :=
  sorted by_real_date (filter (λ v, slice v = slice_) input).


(** Every count is an int. *)
Definition int_counts `{Arith} (vs : list (Vaccinated num)) : Prop :=
  Forall (λ v, ∃ z, vaccinated v = num_of_Z z) vs.

(** The observations of a slice dated in the 7 days that end on [max_date]. *)
Definition trailing_week `{Arith} (input : list (Vaccinated num)) (max_date : date)
    (slice_ : Slice) : list (Vaccinated num) :=
  filter (λ v, slice v = slice_
             ∧ max_date - 6 ≤ real_date (source v) ≤ max_date) input.

(** Their points: days since [max_date] (0 down to -6) and count. *)
Definition trailing_points `{Arith} (input : list (Vaccinated num)) (max_date : date)
    (slice_ : Slice) : list (Z * num) :=
  (λ v, (real_date (source v) - max_date, vaccinated v))
    <$> trailing_week input max_date slice_.

(** The forecast of a slice [k] weeks after [max_date] on the line of slope
    [m] and intercept [b]: [m * k * 7 + b]. *)
Definition prediction `{Arith} (max_date : date) (slice_ : Slice) (m b : num)
    (k : Z) : Vaccinated num :=
  {| source :=
       {| origin := "prediction";
          data_date := max_date + 7 * k;
          real_date := max_date + 7 * k;
          period := "daily" |};
     vaccinated := (m * num_of_Z k * num_of_Z 7 + b)%num;
     slice := slice_;
     extrapolated := true;
     interpolated := false |}.


(** The sum of all counts of the samples dated [t], and of those with value
    [x] on the dimension. *)
Definition total_on `{Arith} (weekly : list (Vaccinated num)) (t : date) : num :=
  sum (vaccinated <$> filter (λ v, real_date (source v) = t) weekly).

Definition part_on `{Arith} (weekly : list (Vaccinated num)) (dim : Dim) (t : date)
    (x : DimValue) : num :=
  sum (vaccinated
         <$> filter (λ v, real_date (source v) = t
                        ∧ getattr (slice v) dim = x) weekly).




(** The peers of an aggregate as the specification defines them: the daily
    observations of its real date that are not wildcard on [dim] and carry
    the aggregate's values, not wildcard, on the other two dimensions. *)
Definition peers_of `{Arith} (aggregate : Vaccinated num) (dim : Dim)
    (input : list (Vaccinated num)) : list (Vaccinated num) :=
  filter (λ v, period (source v) = "daily"
             ∧ real_date (source v) = real_date (source aggregate)
             ∧ is_all (getattr (slice v) dim) = false
             ∧ Forall (λ other_dim,
                 getattr (slice v) other_dim
                 = getattr (slice aggregate) other_dim
                 ∧ is_all (getattr (slice v) other_dim) = false)
                 (other_dims dim))
    input.

(** The daily observations of the aggregate's real date, among which the
    loop looks for its peers. *)
Definition vaccinated_on_date_of `{Arith} (aggregate : Vaccinated num)
    (input : list (Vaccinated num)) : list (Vaccinated num) :=
  filter (λ v, real_date (source v) = real_date (source aggregate))
    (filter (λ v, period (source v) = "daily") input).

(** [|aggregate.count - Σ peer.count|] *)
Definition difference_of `{Arith} (aggregate : Vaccinated num)
    (peers : list (Vaccinated num)) : num :=
  num_abs (vaccinated aggregate - sum (vaccinated <$> peers))%num.

(** ** Fixtures *)

(** A daily report of a count on a date. *)
Definition report `{Arith} (period_ : string) (d : date) (count : num)
    (s : Slice) : Vaccinated num :=
  mkVaccinated (mkSource "report" d d period_) count s false false.

(** The fixture of the specification's dose-2 floor property: dose 1 counted
    1000 on a date, dose 2 counted [n] 84 days later, same location and
    group. *)
Definition floor_dose1 `{Arith} : Vaccinated num :=
  report "daily" (mkdate 2021 1 10) (num_of_Z 1000)
    (mkSlice DOSE_1 (Group_of "over80") Location_ALL).

Definition floor_dose2 `{Arith} (n : Z) : Vaccinated num :=
  report "daily" (mkdate 2021 4 4) (num_of_Z n)
    (mkSlice DOSE_2 (Group_of "over80") Location_ALL).

(** An input for the dose-2 wait: one dose-1 and one dose-2 report, and a
    forecast of dose 2 eleven days after the last report. *)
Definition wait_input `{Arith} : list (Vaccinated num) :=
  [mkVaccinated (mkSource "report" (mkdate 2021 3 1) (mkdate 2021 3 1) "daily")
     (num_of_Z 500) (mkSlice DOSE_1 (Group_of "over80") Location_ALL)
     false false;
   mkVaccinated (mkSource "report" (mkdate 2021 3 2) (mkdate 2021 3 3) "daily")
     (num_of_Z 120) (mkSlice DOSE_2 (Group_of "over80") Location_ALL)
     false true;
   mkVaccinated (mkSource "prediction" (mkdate 2021 3 14) (mkdate 2021 3 14) "daily")
     (num_of_Z 150) (mkSlice DOSE_2 (Group_of "over80") Location_ALL)
     true false].

(** Two slices with cumulative int counts, not in date order; the count of
    the first slice falls from 70 to 65. *)
Definition cumulative_input `{Arith} : list (Vaccinated num) :=
  [report "daily" 20 (num_of_Z 70) (mkSlice DOSE_1 (Group_of "over80") Location_ALL);
   report "daily" 10 (num_of_Z 30) (mkSlice DOSE_1 (Group_of "over80") Location_ALL);
   report "daily" 10 (num_of_Z 4) (mkSlice DOSE_2 (Group_of "over80") Location_ALL);
   report "daily" 30 (num_of_Z 65) (mkSlice DOSE_1 (Group_of "over80") Location_ALL)].


(** The fixture of the specification's forecast property: one slice with the
    two trailing points (day -6, 100) and (day 0, 130). *)
Definition forecast_slice : Slice :=
  mkSlice DOSE_1 (Group_of "over80") Location_ALL.

Definition forecast_input `{Arith} : list (Vaccinated num) :=
  [report "daily" (mkdate 2021 2 1) (num_of_Z 100) forecast_slice;
   report "daily" (mkdate 2021 2 7) (num_of_Z 130) forecast_slice].

(** The fixture of the specification's interpolation property: weekly
    samples A = 60, B = 40 on 2021-01-01 and A = 45, B = 55 on 2021-01-08,
    and a daily aggregate of 100 dated 2021-01-04, over the groups. *)
Definition weekly_sample `{Arith} (d : date) (g : string) (n : Z) : Vaccinated num :=
  report "weekly" d (num_of_Z n) (mkSlice DOSE_1 (Group_of g) Location_ALL).

Definition daily_aggregate `{Arith} (n : Z) : Vaccinated num :=
  report "daily" (mkdate 2021 1 4) (num_of_Z n)
    (mkSlice DOSE_1 Group_ALL Location_ALL).

Definition interpolation_input `{Arith} : list (Vaccinated num) :=
  [daily_aggregate 100;
   weekly_sample (mkdate 2021 1 1) "A" 60;
   weekly_sample (mkdate 2021 1 1) "B" 40;
   weekly_sample (mkdate 2021 1 8) "A" 45;
   weekly_sample (mkdate 2021 1 8) "B" 55].

(** The same shape with the shares 1/49 and 48/49 of an aggregate of 49. *)
Definition sevenths_input `{Arith} : list (Vaccinated num) :=
  [daily_aggregate 49;
   weekly_sample (mkdate 2021 1 1) "A" 1;
   weekly_sample (mkdate 2021 1 1) "B" 48;
   weekly_sample (mkdate 2021 1 8) "A" 1;
   weekly_sample (mkdate 2021 1 8) "B" 48].

(** An input on which the deaggregator has two matching weekly samples of a
    single date: the aggregate of the fixture and the samples of
    2021-01-01. *)
Definition one_week_input `{Arith} : list (Vaccinated num) :=
  [daily_aggregate 100;
   weekly_sample (mkdate 2021 1 1) "A" 60;
   weekly_sample (mkdate 2021 1 1) "B" 40].

(** An input with an aggregate over the groups and its two peers, which add
    up to it, and weekly samples of the same dose and location. *)
Definition england `{Arith} (period_ : string) (d : date) (g : Group) (n : Z)
  : Vaccinated num :=
  report period_ d (num_of_Z n) (mkSlice DOSE_1 g (Location_of "England")).

Definition peers_input `{Arith} : list (Vaccinated num) :=
  [england "daily" (mkdate 2021 1 4) Group_ALL 100;
   england "daily" (mkdate 2021 1 4) (Group_of "A") 60;
   england "daily" (mkdate 2021 1 4) (Group_of "B") 40;
   england "weekly" (mkdate 2021 1 1) (Group_of "A") 60;
   england "weekly" (mkdate 2021 1 1) (Group_of "B") 40;
   england "weekly" (mkdate 2021 1 8) (Group_of "A") 45;
   england "weekly" (mkdate 2021 1 8) (Group_of "B") 55].

(** The same with an aggregate of 5000 over the groups, 4900 more than its
    peers add up to. *)
Definition inconsistent_input `{Arith} : list (Vaccinated num) :=
  [england "daily" (mkdate 2021 1 4) Group_ALL 5000;
   england "daily" (mkdate 2021 1 4) (Group_of "A") 60;
   england "daily" (mkdate 2021 1 4) (Group_of "B") 40;
   england "weekly" (mkdate 2021 1 1) (Group_of "A") 60;
   england "weekly" (mkdate 2021 1 1) (Group_of "B") 40;
   england "weekly" (mkdate 2021 1 8) (Group_of "A") 45;
   england "weekly" (mkdate 2021 1 8) (Group_of "B") 55].

(** What the conversions between cumulative and non-cumulative counts leave
    alone: everything of an observation but its count. *)
Definition without_count {num} (v : Vaccinated num)
  : Source * Slice * bool * bool :=
  (source v, slice v, extrapolated v, interpolated v).

(** An aggregate over the locations, with weekly samples of two locations on
    two dates. *)
Definition region `{Arith} (period_ : string) (d : date) (l : Location) (n : Z)
  : Vaccinated num :=
  report period_ d (num_of_Z n) (mkSlice DOSE_1 (Group_of "over80") l).

Definition regions_input `{Arith} : list (Vaccinated num) :=
  [region "daily" (mkdate 2021 1 4) Location_ALL 100;
   region "weekly" (mkdate 2021 1 1) (Location_of "England") 60;
   region "weekly" (mkdate 2021 1 1) (Location_of "Wales") 40;
   region "weekly" (mkdate 2021 1 8) (Location_of "England") 45;
   region "weekly" (mkdate 2021 1 8) (Location_of "Wales") 55].

(** The observation [v] is made from [aggregate] over [dim] with the value
    of the weekly sample [w] of the input: the aggregate's source, its slice
    with that value on the dimension, which is the slice of the sample, an
    int count, interpolated. *)
Definition deaggregated_from `{Arith} (input : list (Vaccinated num))
    (aggregate : Vaccinated num) (dim : Dim) (w v : Vaccinated num) : Prop :=
  w ∈ input
  ∧ period (source w) = "weekly"
  ∧ is_all (getattr (slice w) dim) = false
  ∧ source v = source aggregate
  ∧ slice v = replace_dim (slice aggregate) dim (getattr (slice w) dim)
  ∧ slice v = slice w
  ∧ interpolated v = true
  ∧ extrapolated v = false
  ∧ ∃ count : Z, vaccinated v = num_of_Z count.

(** The observation that [add_dose_2_wait] makes from the dose-2 observation
    [v], for the latest date [max_date] of the observations that are not
    extrapolated. *)
Definition dose_2_wait_of `{Arith} (max_date : date) (v : Vaccinated num)
  : Vaccinated num :=
  let wait_date := real_date (source v) + timedelta_days 7 in
  mkVaccinated (replace_real_date (source v) wait_date)
    (vaccinated v)
    (replace_dose (slice v) DOSE_2_PLUS_WAIT)
    (bool_decide (max_date < wait_date))
    (interpolated v).

(** Another possible order of the sets: the reverse of [insertion_order]. *)
Definition reverse_order : SetOrder.
Proof.
  refine {| set_iter := λ A _ l, reverse (remove_dups l) |}.
  - intros A ? l. rewrite reverse_Permutation. apply NoDup_remove_dups.
  - intros A ? l x. rewrite elem_of_reverse. apply elem_of_remove_dups.
Defined.

(** An aggregate dated 2021-01-04 with weekly samples one day before it and
    three days before and after it: the two further dates are equally
    near. *)
Definition tie_input `{Arith} : list (Vaccinated num) :=
  [daily_aggregate 100;
   weekly_sample (mkdate 2021 1 3) "A" 50;
   weekly_sample (mkdate 2021 1 3) "B" 50;
   weekly_sample (mkdate 2021 1 1) "A" 60;
   weekly_sample (mkdate 2021 1 1) "B" 40;
   weekly_sample (mkdate 2021 1 7) "A" 20;
   weekly_sample (mkdate 2021 1 7) "B" 80].

(** * Properties *)



(** ** Results and loops *)

Lemma result_bind_Ok {A B} (a : A) (k : A → result B) : Ok a ≫= k = k a.
Proof. done. Qed.

Lemma yield_each_Ok {A B} (f : A → result B) (g : A → B) (l : list A) :
  (∀ x, x ∈ l → f x = Ok (g x)) → yield_each f l = Ok (g <$> l).
Proof.
  induction l as [| x l IH]; intros Hf; [done |].
  simpl. rewrite Hf by apply list_elem_of_here. simpl.
  rewrite IH; [done |]. intros y Hy. by apply Hf, list_elem_of_further.
Qed.

Lemma yield_each_Raise {A B} (f : A → result B) (x : A) (l : list A) (e : exn) :
  f x = Raise e → yield_each f (x :: l) = Raise e.
Proof. intros Hf. simpl. by rewrite Hf. Qed.

(** What was yielded was yielded by the body, element by element. *)
Lemma yield_each_Ok_inv {A B} (f : A → result B) (l : list A) (ys : list B) :
  yield_each f l = Ok ys → Forall2 (λ x y, f x = Ok y) l ys.
Proof.
  revert ys. induction l as [| x l IH]; intros ys.
  - intros [= <-]. constructor.
  - simpl. destruct (f x) as [y |] eqn:Hx; [| done]. simpl.
    destruct (yield_each f l) as [ys' |]; [| done]. simpl.
    intros [= <-]. constructor; [done | by apply IH].
Qed.

Lemma truediv_nonzero `{Arith} (a b : num) :
  num_is_zero b = false → truediv a b = Ok (num_div a b).
Proof. intros Hb. unfold truediv. by rewrite Hb. Qed.

Lemma truediv_zero `{Arith} (a b : num) :
  num_is_zero b = true → truediv a b = Raise ZeroDivisionError.
Proof. intros Hb. unfold truediv. by rewrite Hb. Qed.

(** ** Lists: filters, groups and stable sorting *)

Lemma filter_none {A} (P : A → Prop) `{∀ x, Decision (P x)} (l : list A) :
  Forall (λ x, ¬ P x) l → filter P l = [].
Proof.
  induction 1 as [| x l Hx _ IH]; [done |].
  by rewrite filter_cons, decide_False.
Qed.

Lemma filter_all {A} (P : A → Prop) `{∀ x, Decision (P x)} (l : list A) :
  Forall P l → filter P l = l.
Proof.
  induction 1 as [| x l Hx _ IH]; [done |].
  by rewrite filter_cons, decide_True, IH.
Qed.

Lemma filter_fmap {A B} (f : A → B) (P : B → Prop) `{∀ y, Decision (P y)}
    (l : list A) :
  filter P (f <$> l) = f <$> filter (λ x, P (f x)) l.
Proof.
  induction l as [| x l IH]; [done |].
  rewrite fmap_cons, !filter_cons, IH. by destruct (decide (P (f x))).
Qed.

Lemma filter_ext_in {A} (P Q : A → Prop) `{∀ x, Decision (P x)}
    `{∀ x, Decision (Q x)} (l : list A) :
  (∀ x, x ∈ l → P x ↔ Q x) → filter P l = filter Q l.
Proof.
  induction l as [| x l IH]; intros HPQ; [done |].
  rewrite !filter_cons, IH by (intros y Hy; by apply HPQ, list_elem_of_further).
  destruct (decide (P x)) as [HP | HP].
  - by rewrite decide_True by (by apply HPQ; [apply list_elem_of_here |]).
  - rewrite decide_False; [done |].
    intros HQ. by apply HP, HPQ; [apply list_elem_of_here |].
Qed.

Lemma bind_ext_in {A B} (f g : A → list B) (l : list A) :
  (∀ x, x ∈ l → f x = g x) → l ≫= f = l ≫= g.
Proof.
  induction l as [| x l IH]; intros Hfg; [done |].
  rewrite !bind_cons, IH, Hfg; [done | apply list_elem_of_here |].
  intros y Hy. by apply Hfg, list_elem_of_further.
Qed.

Lemma bind_Permutation_pointwise {A B} (f g : A → list B) (l : list A) :
  (∀ x, f x ≡ₚ g x) → l ≫= f ≡ₚ l ≫= g.
Proof.
  intros Hfg. induction l as [| x l IH]; [done |].
  by rewrite !bind_cons, IH, Hfg.
Qed.

Lemma concat_fmap_bind {A B} (g : A → list B) (l : list A) :
  concat (g <$> l) = l ≫= g.
Proof.
  induction l as [| x l IH]; [done |]. by rewrite fmap_cons, bind_cons, <- IH.
Qed.

(** Filtering the concatenation of groups by the key of one group. *)
Lemma filter_bind_group {A K} `{EqDecision K} (key : A → K) (g : K → list A)
    (ks : list K) (k : K) :
  NoDup ks → (∀ k' x, x ∈ g k' → key x = k') →
  filter (λ x, key x = k) (ks ≫= g) = if decide (k ∈ ks) then g k else [].
Proof.
  intros Hnd Hg. induction Hnd as [| k0 ks Hk0 Hnd IH]; [done |].
  rewrite bind_cons, filter_app, IH. destruct (decide (k0 = k)) as [-> | Hne].
  - rewrite (decide_False (P := k ∈ ks)) by done.
    rewrite decide_True by apply list_elem_of_here. rewrite app_nil_r.
    apply filter_all, Forall_forall. intros x Hx. by apply Hg in Hx.
  - rewrite (filter_none _ (g k0)).
    + simpl. destruct (decide (k ∈ ks)) as [Hin | Hnin].
      * by rewrite decide_True by (by apply list_elem_of_further).
      * rewrite decide_False; [done |].
        intros [-> | ?]%elem_of_cons; done.
    + apply Forall_forall. intros x Hx ?. apply Hg in Hx. congruence.
Qed.

(** The groups of a list by key, over keys without repetition, hold the
    elements of the list once each. *)
Lemma bind_filter_Permutation {A K} `{EqDecision K} (key : A → K) (l : list A)
    (ks : list K) :
  NoDup ks → (∀ x, x ∈ l → key x ∈ ks) →
  ks ≫= (λ k, filter (λ x, key x = k) l) ≡ₚ l.
Proof.
  intros Hnd Hks.
  transitivity (filter (λ x, key x ∈ ks) l).
  - clear Hks. induction Hnd as [| k ks Hk Hnd IH].
    + simpl. rewrite filter_none; [done |].
      apply Forall_forall. intros x _ Hx. by apply not_elem_of_nil in Hx.
    + rewrite bind_cons, IH.
      rewrite <- (filter_app_complement (λ x, key x = k)
                    (filter (λ x, key x ∈ k :: ks) l)).
      f_equiv.
      * rewrite list_filter_filter_l; [done |].
        intros x ->. apply list_elem_of_here.
      * rewrite list_filter_filter. apply reflexive_eq, list_filter_iff.
        intros x. rewrite elem_of_cons. split; [| tauto].
        intros Hx. split; [congruence | tauto].
  - apply reflexive_eq, filter_all, Forall_forall. done.
Qed.

Lemma insert_by_Permutation {A} (key : A → Z) (x : A) (l : list A) :
  insert_by key x l ≡ₚ x :: l.
Proof.
  induction l as [| y l IH]; [done |]. simpl.
  destruct (key x <=? key y); [done |]. by rewrite IH, Permutation_swap.
Qed.

Lemma sorted_Permutation {A} (key : A → Z) (l : list A) : sorted key l ≡ₚ l.
Proof.
  induction l as [| x l IH]; [done |].
  unfold sorted in *. simpl. by rewrite insert_by_Permutation, IH.
Qed.

Lemma insert_by_Sorted {A} (key : A → Z) (x : A) (l : list A) :
  Sorted Z.le (key <$> l) → Sorted Z.le (key <$> insert_by key x l).
Proof.
  induction l as [| y l IH]; intros Hs; simpl.
  - by repeat constructor.
  - destruct (Z.leb_spec (key x) (key y)) as [Hle | Hlt].
    + constructor; [done | by constructor].
    + rewrite fmap_cons in Hs. apply Sorted_inv in Hs as [Hs Hhd].
      rewrite fmap_cons. constructor; [by apply IH |].
      destruct l as [| z l]; simpl.
      * constructor. lia.
      * apply HdRel_inv in Hhd.
        destruct (key x <=? key z); constructor; simpl; lia.
Qed.

Lemma sorted_Sorted {A} (key : A → Z) (l : list A) :
  Sorted Z.le (key <$> sorted key l).
Proof.
  induction l as [| x l IH]; [constructor |].
  by apply insert_by_Sorted.
Qed.

(** Sorting is stable: a list already in order is left as it is. *)
Lemma sorted_already {A} (key : A → Z) (l : list A) :
  Sorted Z.le (key <$> l) → sorted key l = l.
Proof.
  induction l as [| x l IH]; [done |]. rewrite fmap_cons.
  intros [Hs Hhd]%Sorted_inv. unfold sorted in *. simpl. rewrite IH by done.
  destruct l as [| y l]; [done |]. simpl.
  apply HdRel_inv in Hhd. by rewrite (proj2 (Z.leb_le _ _) Hhd).
Qed.



Lemma set_iter_single `{SetOrder} {A} `{EqDecision A} (l : list A) (a : A) :
  a ∈ l → (∀ x, x ∈ l → x = a) → set_iter l = [a].
Proof.
  intros Ha Hall.
  pose proof (set_iter_NoDup l) as Hnd.
  assert (∀ x, x ∈ set_iter l → x = a) as Hall'
    by (intros x Hx; by apply Hall, set_iter_elem).
  apply (proj2 (set_iter_elem l a)) in Ha.
  destruct (set_iter l) as [| x l']; [by apply not_elem_of_nil in Ha |].
  assert (x = a) as -> by apply Hall', list_elem_of_here.
  destruct l' as [| y l']; [done |].
  assert (y = a) as -> by apply Hall', list_elem_of_further, list_elem_of_here.
  apply NoDup_cons in Hnd as [Hnin _]. destruct Hnin. apply list_elem_of_here.
Qed.

(** ** Maximum of a sequence of dates *)

Lemma foldl_max_latest (d : date) (ds : list date) :
  latest (foldl Z.max d ds) (d :: ds).
Proof.
  revert d. induction ds as [| x ds IH]; intros d.
  - split; [apply list_elem_of_here |].
    intros d' ->%list_elem_of_singleton. simpl. lia.
  - simpl. destruct (IH (Z.max d x)) as [Hin Hle]. split.
    + apply elem_of_cons in Hin as [-> | Hin].
      * destruct (Z.max_spec d x) as [[_ ->] | [_ ->]]; set_solver.
      * set_solver.
    + intros d' Hd'.
      assert (Z.max d x ≤ foldl Z.max (Z.max d x) ds)
        by (apply Hle, list_elem_of_here).
      apply elem_of_cons in Hd' as [-> | Hd']; [lia |].
      apply elem_of_cons in Hd' as [-> | Hd']; [lia |].
      apply Hle. by apply list_elem_of_further.
Qed.

Lemma max_of_latest (d : date) (ds : list date) :
  latest d ds → max_of ds = Ok d.
Proof.
  intros [Hin Hle]. destruct ds as [| x ds]; [by apply not_elem_of_nil in Hin |].
  simpl. f_equal. destruct (foldl_max_latest x ds) as [Hin' Hle'].
  apply Z.le_antisymm; [by apply Hle | by apply Hle'].
Qed.

Lemma max_of_nonempty (ds : list date) :
  ds ≠ [] → ∃ d, max_of ds = Ok d ∧ latest d ds.
Proof.
  destruct ds as [| x ds]; [done | intros _].
  eexists. split; [done | apply foldl_max_latest].
Qed.

(** ** Aggregate suppression *)

Section suppression.
Context `{Arith}.

Lemma remove_aggregates_cons v input :
  remove_aggregates (v :: input)
  = (if decide (retained v) then [v] else []) ++ remove_aggregates input.
Proof.
  unfold remove_aggregates at 1. rewrite bind_cons. f_equal.
  unfold FIRST_DAILY_DATA.
  destruct (decide (retained v)) as [(Hd & Hg & Hl & Hw) | Hr].
  - rewrite Hd, Hg, Hl. simpl.
    destruct (Z.leb_spec (mkdate 2021 1 9) (real_date (source v))); [| done].
    simpl. by rewrite bool_decide_eq_false_2 by tauto.
  - destruct (is_all (VGroup _)) eqn:Hg; [done |].
    destruct (is_all (VDose _)) eqn:Hd; [done |].
    destruct (is_all (VLocation _)) eqn:Hl; [| done]. simpl.
    destruct (Z.leb_spec (mkdate 2021 1 9) (real_date (source v)));
      simpl; [case_bool_decide; [done |] |]; destruct Hr; unfold retained;
      rewrite Hg, Hd, Hl; split_and!; try done; intros [? ?]; done || lia.
Qed.

Lemma remove_aggregates_filter input :
  remove_aggregates input = filter retained input.
Proof.
  induction input as [| v input IH]; [done |].
  rewrite remove_aggregates_cons, IH, filter_cons. by case_decide.
Qed.

(** C7: [remove_aggregates] retains an observation if and only if its dose
    and group are both non-wildcard, its location is wildcard, and it is not
    a weekly record dated on or after 2021-01-09; the result is the input
    with the other observations left out, nothing created or changed, so a
    second application changes nothing. *)
Theorem remove_aggregates_retains_iff (input : list (Vaccinated num)) :
  remove_aggregates input = filter retained input
  ∧ (∀ v, v ∈ remove_aggregates input ↔ v ∈ input ∧ retained v)
  ∧ remove_aggregates input `sublist_of` input
  ∧ remove_aggregates (remove_aggregates input) = remove_aggregates input.
Proof.
  rewrite !remove_aggregates_filter. split_and!.
  - done.
  - intros v. rewrite list_elem_of_filter. tauto.
  - apply sublist_filter.
  - apply list_filter_filter_l. tauto.
Qed.

End suppression.

(** ** The dose-1 floor of dose 2 *)

(** A dict filled by a loop holds, at each key, the value of the last item
    of that key. *)
Lemma foldl_insert_lookup {K V A} `{Countable K} (key : A → K) (val : A → V)
    (l : list A) (m : gmap K V) (k : K) :
  foldl (λ m v, <[key v := val v]> m) m l !! k
  = match last (filter (λ v, key v = k) l) with
    | Some v => Some (val v)
    | None => m !! k
    end.
Proof.
  revert m. induction l as [| x l IH]; intros m; [done |].
  simpl. rewrite IH, filter_cons. case_decide as Hk.
  - rewrite last_cons. destruct (last (filter _ l)); [done |].
    subst k. by rewrite lookup_insert_eq.
  - destruct (last (filter _ l)); [done |]. by rewrite lookup_insert_ne.
Qed.

Section dose_lag.
Context `{Arith}.

Lemma dose1s_by_date_slice_lookup input dose2 :
  dose1s_by_date_slice_of input
    !! (real_date (source dose2) - timedelta_weeks 12,
        location (slice dose2), group (slice dose2))
  = vaccinated <$> last (filter (dose1_12w_before dose2) input).
Proof.
  unfold dose1s_by_date_slice_of. rewrite foldl_insert_lookup, lookup_empty.
  rewrite list_filter_filter.
  rewrite (list_filter_iff _ (dose1_12w_before dose2)).
  - by destruct (last _).
  - intros v. unfold dose1_12w_before, timedelta_weeks. split.
    + intros [[= Hd Hl Hg] Hdose]. split_and!; [done | lia | done | done].
    + intros (Hdose & Hd & Hl & Hg). split; [| done].
      f_equal; [f_equal |]; [lia | done | done].
Qed.

(** C8: [add_12w_dose_lag] keeps the place and number of the observations.
    An observation that is not dose 2 passes unchanged, and so does a dose-2
    observation for which no dose-1 observation exists 12 weeks earlier at its
    location and group.  When one exists, the dose-2 observation is replaced
    by a copy whose count is [max(dose2.count, dose1.count)], the dose-1
    count unless it is not greater (the count of the last such dose-1
    observation), flagged extrapolated, also when its own count is kept. *)
Theorem add_12w_dose_lag_floor (input : list (Vaccinated num)) (i : nat)
    (v : Vaccinated num) :
  input !! i = Some v →
  length (add_12w_dose_lag input) = length input
  ∧ (dose (slice v) ≠ DOSE_2 → add_12w_dose_lag input !! i = Some v)
  ∧ (dose (slice v) = DOSE_2 →
     (∀ d1, d1 ∈ input → ¬ dose1_12w_before v d1) →
     add_12w_dose_lag input !! i = Some v)
  ∧ (dose (slice v) = DOSE_2 →
     (∃ d1, d1 ∈ input ∧ dose1_12w_before v d1) →
     ∃ d1,
       d1 ∈ input ∧ dose1_12w_before v d1
       ∧ last (filter (dose1_12w_before v) input) = Some d1
       ∧ add_12w_dose_lag input !! i
         = Some (mkVaccinated (source v)
                   (if num_lt (vaccinated v) (vaccinated d1)
                    then vaccinated d1 else vaccinated v)
                   (slice v) true (interpolated v))).
Proof.
  intros Hi. unfold add_12w_dose_lag.
  rewrite length_fmap, list_lookup_fmap, Hi. simpl.
  rewrite dose1s_by_date_slice_lookup. split_and!.
  - done.
  - intros Hd. by rewrite decide_True.
  - intros Hd Hno. rewrite decide_False by (intros Hne; by destruct Hne).
    destruct (last _) as [d1 |] eqn:Hlast; [| done].
    apply last_Some_elem_of, list_elem_of_filter in Hlast as [Hb Hin].
    by destruct (Hno d1 Hin).
  - intros Hd (d1' & Hin & Hbefore).
    rewrite decide_False by (intros Hne; by destruct Hne).
    destruct (last _) as [d1 |] eqn:Hlast.
    + pose proof Hlast as Hd1.
      apply last_Some_elem_of, list_elem_of_filter in Hd1 as [? ?].
      exists d1. by split_and!.
    + apply last_None in Hlast.
      assert (d1' ∈ filter (dose1_12w_before v) input) as Hf
        by (apply list_elem_of_filter; done).
      rewrite Hlast in Hf. by apply not_elem_of_nil in Hf.
Qed.

(** The specification's fixture: 800 is raised to the dose-1 count 1000,
    1200 stays 1200, and both are flagged. *)
Lemma add_12w_dose_lag_fixture :
  add_12w_dose_lag [floor_dose1; floor_dose2 800]
  = [floor_dose1;
     mkVaccinated (source (floor_dose2 800)) (num_of_Z 1000)
       (slice (floor_dose2 800)) true false]
  ∧ add_12w_dose_lag [floor_dose1; floor_dose2 1200]
    = [floor_dose1;
       mkVaccinated (source (floor_dose2 1200)) (num_of_Z 1200)
         (slice (floor_dose2 1200)) true false].
Proof.
  assert (∀ n, add_12w_dose_lag [floor_dose1; floor_dose2 n]
               = [floor_dose1;
                  mkVaccinated (source (floor_dose2 n))
                    (num_max (num_of_Z n) (num_of_Z 1000))
                    (slice (floor_dose2 n)) true false]) as Hlag.
  { intros n. unfold add_12w_dose_lag. rewrite !fmap_cons, fmap_nil.
    cbv zeta. rewrite (dose1s_by_date_slice_lookup _ (floor_dose2 n)).
    change (filter _ _) with [floor_dose1].
    rewrite decide_True by done.
    by rewrite decide_False by (intros Hne; by destruct Hne). }
  rewrite !Hlag. unfold num_max. rewrite !num_lt_of_Z.
  split; reflexivity.
Qed.

End dose_lag.

Section dose_lag_python.
Local Existing Instance python_arith.

Lemma add_12w_dose_lag_floor_witness :
  [@floor_dose1 python_arith; floor_dose2 800] !! 1%nat
  = Some (floor_dose2 800)
  ∧ add_12w_dose_lag [@floor_dose1 python_arith; floor_dose2 800] !! 1%nat
    = Some (@mkVaccinated number (source (floor_dose2 800)) (Int 1000)
              (slice (floor_dose2 800)) true false).
Proof.
  split; [reflexivity |].
  destruct (@add_12w_dose_lag_floor python_arith
              [floor_dose1; floor_dose2 800] 1 (floor_dose2 800) eq_refl)
    as (_ & _ & _ & Hfloor).
  destruct Hfloor as (d1 & _ & _ & Hlast & Heq);
    [reflexivity
    | exists floor_dose1; split; [apply list_elem_of_here | vm_compute; tauto]
    |].
  vm_compute in Hlast. injection Hlast as <-. exact Heq.
Defined.

End dose_lag_python.

(** ** The dose-2-plus-wait slice *)

Section dose_wait.
Context `{Arith}.

(** C9: when [max_date] is the latest real date among the observations that
    are not extrapolated, [add_dose_2_wait] returns the input unchanged
    followed by one new observation for every dose-2 observation, in order:
    dose [DOSE_2_PLUS_WAIT], real date 7 days later, the same count, and
    extrapolated exactly when the new date exceeds [max_date]; the dose-2
    observations themselves stay in the input part. *)
Theorem add_dose_2_wait_adds_shifted (input : list (Vaccinated num)) (max_date : date) :
  latest max_date (non_extrapolated_dates input) →
  add_dose_2_wait input
  = Ok (input
        ++ ((λ v,
               {| source :=
                    {| origin := origin (source v);
                       data_date := data_date (source v);
                       real_date := real_date (source v) + 7;
                       period := period (source v) |};
                  vaccinated := vaccinated v;
                  slice :=
                    {| dose := DOSE_2_PLUS_WAIT;
                       group := group (slice v);
                       location := location (slice v) |};
                  extrapolated := bool_decide (max_date < real_date (source v) + 7);
                  interpolated := interpolated v |})
              <$> filter (λ v, dose (slice v) = DOSE_2) input)).
Proof.
  intros Hmax. unfold add_dose_2_wait.
  fold (non_extrapolated_dates input). rewrite (max_of_latest _ _ Hmax).
  rewrite result_bind_Ok. do 2 f_equal. clear Hmax.
  induction input as [| v input IH]; [done |].
  rewrite bind_cons, filter_cons, IH.
  destruct (decide (dose (slice v) = DOSE_2)) as [Hd | Hd].
  - by rewrite decide_False by (intros Hne; by destruct Hne).
  - by rewrite decide_True.
Qed.





End dose_wait.

Section dose_wait_python.
Local Existing Instance python_arith.

Lemma add_dose_2_wait_adds_shifted_witness :
  latest (mkdate 2021 3 3) (non_extrapolated_dates (@wait_input python_arith))
  ∧ add_dose_2_wait (@wait_input python_arith)
    = Ok (wait_input
          ++ [@mkVaccinated number
                (mkSource "report" (mkdate 2021 3 2) (mkdate 2021 3 10) "daily")
                (Int 120)
                (mkSlice DOSE_2_PLUS_WAIT (Group_of "over80") Location_ALL)
                true true;
              @mkVaccinated number
                (mkSource "prediction" (mkdate 2021 3 14) (mkdate 2021 3 21) "daily")
                (Int 150)
                (mkSlice DOSE_2_PLUS_WAIT (Group_of "over80") Location_ALL)
                true false]).
Proof.
  assert (latest (mkdate 2021 3 3)
            (non_extrapolated_dates (@wait_input python_arith))) as Hmax.
  { split; [apply list_elem_of_further, list_elem_of_here |].
    intros d' Hd'. vm_compute in Hd'.
    apply elem_of_cons in Hd' as [-> | Hd']; [vm_compute; discriminate |].
    apply list_elem_of_singleton in Hd' as ->. vm_compute; discriminate. }
  split; [exact Hmax |].
  exact (@add_dose_2_wait_adds_shifted python_arith wait_input
           (mkdate 2021 3 3) Hmax).
Defined.

End dose_wait_python.

(** ** Cumulative and non-cumulative counts *)

Section cumulative.
Context `{Arith} `{SetOrder}.

Lemma replace_vaccinated_same (v : Vaccinated num) :
  replace_vaccinated v (vaccinated v) = v.
Proof. by destruct v. Qed.

Lemma zip_with_differences (v : Vaccinated num) (vs : list (Vaccinated num)) :
  zip_with (λ v1 v2, replace_vaccinated v2 (vaccinated v2 - vaccinated v1)%num)
    (v :: vs) vs
  = differences (vaccinated v) vs.
Proof.
  revert v. induction vs as [| v' vs IH]; intros v; [done |].
  simpl. f_equal. apply IH.
Qed.

Lemma differences_fmap {B} (f : Vaccinated num → B) (p : num)
    (vs : list (Vaccinated num)) :
  (∀ v x, f (replace_vaccinated v x) = f v) →
  f <$> differences p vs = f <$> vs.
Proof.
  intros Hf. revert p. induction vs as [| v vs IH]; intros p; [done |].
  simpl. by rewrite Hf, IH.
Qed.

Lemma first_differences_fmap {B} (f : Vaccinated num → B)
    (vs : list (Vaccinated num)) :
  (∀ v x, f (replace_vaccinated v x) = f v) →
  f <$> first_differences vs = f <$> vs.
Proof.
  intros Hf. destruct vs as [| v vs]; [done |].
  simpl. by rewrite differences_fmap.
Qed.



Lemma series_Permutation (input : list (Vaccinated num)) (slice_ : Slice) :
  series input slice_ ≡ₚ filter (λ v, slice v = slice_) input.
Proof. apply sorted_Permutation. Qed.

Lemma series_slice (input : list (Vaccinated num)) (slice_ : Slice)
    (v : Vaccinated num) :
  v ∈ series input slice_ → slice v = slice_.
Proof.
  rewrite series_Permutation, list_elem_of_filter. tauto.
Qed.

Lemma series_int_counts (input : list (Vaccinated num)) (slice_ : Slice) :
  int_counts input → int_counts (series input slice_).
Proof.
  unfold int_counts. rewrite !Forall_forall. intros Hint v Hv.
  rewrite series_Permutation, list_elem_of_filter in Hv. apply Hint, Hv.
Qed.

Lemma series_nonempty (input : list (Vaccinated num)) (v : Vaccinated num) :
  v ∈ input → ∃ v0 vs, series input (slice v) = v0 :: vs.
Proof.
  intros Hin.
  assert (v ∈ series input (slice v)) as Hv
    by (rewrite series_Permutation; by apply list_elem_of_filter).
  destruct (series input (slice v)) as [| v0 vs]; [| by eauto].
  by apply not_elem_of_nil in Hv.
Qed.

(** [make_non_cumulative] never raises: every slice of the set has an
    observation, so [vs[0]] exists.  It yields the first-differences of each
    slice's series, slice after slice. *)
Lemma make_non_cumulative_series (input : list (Vaccinated num)) :
  make_non_cumulative input
  = Ok (set_iter (slice <$> input)
          ≫= λ slice_, first_differences (series input slice_)).
Proof.
  unfold make_non_cumulative.
  rewrite (yield_each_Ok _ (λ slice_, first_differences (series input slice_))).
  - simpl. by rewrite concat_fmap_bind.
  - intros slice_ Hs. apply set_iter_elem, list_elem_of_fmap in Hs
      as (v & -> & Hv).
    destruct (series_nonempty input v Hv) as (v0 & vs & Hser).
    fold (series input (slice v)). rewrite Hser.
    change (index (v0 :: vs) 0) with (Ok v0). change (tail (v0 :: vs)) with vs.
    rewrite zip_with_differences. done.
Qed.






End cumulative.

Section cumulative_python.
Import PrimFloat.
Local Existing Instance python_arith.
Local Existing Instance insertion_order.


(** On the fixture, the falling count 70, 65 of the first slice gives the
    difference -5, which is passed on, and the running totals restore the
    counts. *)
Lemma make_non_cumulative_fixture :
  make_non_cumulative cumulative_input
  = Ok [mkVaccinated (mkSource "report" 10 10 "daily") (Int 4)
          (mkSlice DOSE_2 (Group_of "over80") Location_ALL) false false;
        mkVaccinated (mkSource "report" 10 10 "daily") (Int 30)
          (mkSlice DOSE_1 (Group_of "over80") Location_ALL) false false;
        mkVaccinated (mkSource "report" 20 20 "daily") (Int 40)
          (mkSlice DOSE_1 (Group_of "over80") Location_ALL) false false;
        mkVaccinated (mkSource "report" 30 30 "daily") (Int (-5))
          (mkSlice DOSE_1 (Group_of "over80") Location_ALL) false false].
Proof. vm_compute. reflexivity. Qed.


End cumulative_python.

(** ** The least-squares line in exact arithmetic *)

Section least_squares.
Local Existing Instance exact_arith.
Local Abbreviation qsum := (@sum exact_arith).

Lemma foldl_Qcplus (a : Qc) (xs : list Qc) :
  foldl Qcplus a xs = (a + qsum xs)%Qc.
Proof.
  change (qsum xs) with (foldl Qcplus (Qc_of_Z 0) xs). rewrite Z2Qc_inj_0.
  revert a. induction xs as [| x xs IH]; intros a; simpl.
  - ring.
  - rewrite (IH (a + x)%Qc), (IH (0 + x)%Qc). ring.
Qed.

Lemma sum_cons (x : Qc) (xs : list Qc) : qsum (x :: xs) = (x + qsum xs)%Qc.
Proof.
  change (qsum (x :: xs)) with (foldl Qcplus (Qc_of_Z 0 + x)%Qc xs).
  rewrite foldl_Qcplus, Z2Qc_inj_0. change (@num exact_arith) with Qc. ring.
Qed.

Lemma sum_nil : qsum (@nil Qc) = 0%Qc.
Proof. apply Z2Qc_inj_0. Qed.

Lemma zsum_deviations (x : Z) (xs : list Z) :
  zsum ((λ y, (y - x) * (y - x)) <$> xs)
  = zsum ((λ y, y * y) <$> xs) - 2 * x * zsum xs + Z.of_nat (length xs) * x * x.
Proof.
  induction xs as [| y xs IH]; [simpl; lia |].
  rewrite !fmap_cons. simpl zsum. rewrite IH. simpl length.
  rewrite Nat2Z.inj_succ. ring.
Qed.

Lemma spread_cons (x : Z) (xs : list Z) :
  spread (x :: xs) = spread xs + zsum ((λ y, (y - x) * (y - x)) <$> xs).
Proof.
  rewrite zsum_deviations. unfold spread. rewrite fmap_cons. simpl zsum.
  simpl length. rewrite Nat2Z.inj_succ. ring.
Qed.

Lemma zsum_deviations_nonneg (x : Z) (xs : list Z) :
  0 ≤ zsum ((λ y, (y - x) * (y - x)) <$> xs).
Proof.
  induction xs as [| y xs IH]; [done |]. rewrite fmap_cons. simpl zsum.
  pose proof (Z.square_nonneg (y - x)). lia.
Qed.

Lemma zsum_deviations_pos (x y : Z) (xs : list Z) :
  y ∈ xs → y ≠ x → 0 < zsum ((λ y, (y - x) * (y - x)) <$> xs).
Proof.
  intros Hin Hne. induction xs as [| z xs IH]; [by apply not_elem_of_nil in Hin |].
  rewrite fmap_cons. simpl zsum.
  pose proof (zsum_deviations_nonneg x xs).
  pose proof (Z.square_nonneg (z - x)).
  apply elem_of_cons in Hin as [<- | Hin]; [| specialize (IH Hin); lia].
  assert ((y - x) * (y - x) ≠ 0) by (intros ?%Z.mul_eq_0; lia). lia.
Qed.

Lemma spread_nonneg (xs : list Z) : 0 ≤ spread xs.
Proof.
  induction xs as [| x xs IH]; [done |].
  rewrite spread_cons. pose proof (zsum_deviations_nonneg x xs). lia.
Qed.

(** The denominator of the slope is positive as soon as two abscissas
    differ. *)
Lemma spread_pos (xs : list Z) (x1 x2 : Z) :
  x1 ∈ xs → x2 ∈ xs → x1 ≠ x2 → 0 < spread xs.
Proof.
  induction xs as [| x xs IH]; intros H1 H2 Hne;
    [by apply not_elem_of_nil in H1 |].
  rewrite spread_cons.
  pose proof (spread_nonneg xs). pose proof (zsum_deviations_nonneg x xs).
  apply elem_of_cons in H1 as [-> | H1]; apply elem_of_cons in H2 as [-> | H2].
  - done.
  - pose proof (zsum_deviations_pos x x2 xs H2). lia.
  - pose proof (zsum_deviations_pos x x1 xs H1). lia.
  - specialize (IH H1 H2 Hne). lia.
Qed.

Lemma sum_Qc_of_Z (xs : list Z) : qsum (Qc_of_Z <$> xs) = Qc_of_Z (zsum xs).
Proof.
  induction xs as [| x xs IH]; [done |].
  rewrite fmap_cons, sum_cons, IH. simpl zsum. by rewrite Z2Qc_inj_add.
Qed.

Lemma closed_form_spread (pts : list (Z * Qc)) :
  (Qc_of_Z (Z.of_nat (length pts))
   * qsum ((λ p, Qc_of_Z p.1 * Qc_of_Z p.1)%Qc <$> pts)
   - qsum ((λ p, Qc_of_Z p.1) <$> pts) * qsum ((λ p, Qc_of_Z p.1) <$> pts))%Qc
  = Qc_of_Z (spread pts.*1).
Proof.
  unfold spread. rewrite length_fmap.
  replace ((λ p : Z * Qc, Qc_of_Z p.1) <$> pts) with (Qc_of_Z <$> pts.*1)
    by (by rewrite <- list_fmap_compose).
  replace ((λ p : Z * Qc, (Qc_of_Z p.1 * Qc_of_Z p.1)%Qc) <$> pts)
    with (Qc_of_Z <$> ((λ x, x * x) <$> pts.*1)).
  - rewrite !sum_Qc_of_Z. by rewrite Z2Qc_inj_sub, !Z2Qc_inj_mul.
  - rewrite <- !list_fmap_compose. apply list_fmap_ext. intros _ p _. simpl.
    by rewrite Z2Qc_inj_mul.
Qed.

Lemma sum_residuals (m b : Qc) (pts : list (Z * Qc)) :
  qsum ((λ p, m * Qc_of_Z p.1 + b - p.2)%Qc <$> pts)
  = (m * qsum ((λ p, Qc_of_Z p.1) <$> pts)
     + Qc_of_Z (Z.of_nat (length pts)) * b
     - qsum ((λ p, p.2) <$> pts))%Qc.
Proof.
  induction pts as [| p pts IH].
  - rewrite !fmap_nil, !sum_nil.
    change (Z.of_nat (length [])) with 0. rewrite Z2Qc_inj_0. change (@num exact_arith) with Qc. ring.
  - rewrite !fmap_cons, !sum_cons, IH. simpl length.
    rewrite Nat2Z.inj_succ, <- Z.add_1_l, Z2Qc_inj_add, Z2Qc_inj_1.
    change (@num exact_arith) with Qc. ring.
Qed.

Lemma sum_weighted_residuals (m b : Qc) (pts : list (Z * Qc)) :
  qsum ((λ p, Qc_of_Z p.1 * (m * Qc_of_Z p.1 + b - p.2))%Qc <$> pts)
  = (m * qsum ((λ p, Qc_of_Z p.1 * Qc_of_Z p.1)%Qc <$> pts)
     + b * qsum ((λ p, Qc_of_Z p.1) <$> pts)
     - qsum ((λ p, Qc_of_Z p.1 * p.2)%Qc <$> pts))%Qc.
Proof.
  induction pts as [| p pts IH].
  - rewrite !fmap_nil, !sum_nil. change (@num exact_arith) with Qc. ring.
  - rewrite !fmap_cons, !sum_cons, IH. change (@num exact_arith) with Qc. ring.
Qed.

(** The closed form solves the normal equations: in exact arithmetic it is
    a least-squares fit. *)
Lemma closed_form_normal (pts : list (Z * Qc)) (x1 x2 : Z) :
  x1 ∈ pts.*1 → x2 ∈ pts.*1 → x1 ≠ x2 →
  normal_equations pts (closed_form_line pts).
Proof.
  intros H1 H2 Hne.
  pose proof (spread_pos _ _ _ H1 H2 Hne) as Hspread.
  assert (Qc_of_Z (spread pts.*1) ≠ 0%Qc) as Hd.
  { rewrite <- Z2Qc_inj_0. intros ?%Z2Qc_inj. lia. }
  rewrite <- closed_form_spread in Hd.
  assert (Qc_of_Z (Z.of_nat (length pts)) ≠ 0%Qc) as Hn.
  { rewrite <- Z2Qc_inj_0. intros Hz%Z2Qc_inj.
    destruct pts; [by apply not_elem_of_nil in H1 | done]. }
  unfold normal_equations, closed_form_line.
  cbn [fst snd num_div num_mul num_sub num_of_Z exact_arith].
  change (@num exact_arith) with Qc in *.
  rewrite sum_residuals, sum_weighted_residuals.
  set (n := Qc_of_Z (Z.of_nat (length pts))) in *.
  set (sx := qsum ((λ p, Qc_of_Z p.1) <$> pts)) in *.
  set (sy := qsum ((λ p, p.2) <$> pts)) in *.
  set (sxx := qsum ((λ p, Qc_of_Z p.1 * Qc_of_Z p.1)%Qc <$> pts)) in *.
  set (sxy := qsum ((λ p, Qc_of_Z p.1 * p.2)%Qc <$> pts)) in *.
  split; field; auto.
Qed.

Global Instance closed_form_least_squares :
  LeastSquares closed_form_polyfit.
Proof. split. apply closed_form_normal. Qed.



End least_squares.

(** ** Forecasts *)

Section forecasts.
Context `{Arith} `{SetOrder} `{!Polyfit}.

(** The rows that [add_extrapolations] fits are the points of the trailing
    week. *)
Lemma trailing_points_array (input : list (Vaccinated num)) (max_date : date)
    (slice_ : Slice) :
  latest max_date (real_dates input) →
  (λ v, (real_date (source v) - max_date, vaccinated v))
    <$> filter (λ v, slice v = slice_
                   ∧ max_date - timedelta_days 7 < real_date (source v)) input
  = trailing_points input max_date slice_.
Proof.
  intros [_ Hmax]. unfold trailing_points, trailing_week. f_equal.
  apply filter_ext_in. intros v Hv. unfold timedelta_days.
  assert (real_date (source v) ≤ max_date)
    by (apply Hmax, list_elem_of_fmap; eauto).
  split; intros [? ?]; split; done || lia.
Qed.

(** The forecasts of every slice, for any arithmetic and any [polyfit]. *)
Lemma add_extrapolations_slices (input : list (Vaccinated num))
    (max_date : date) :
  latest max_date (real_dates input) →
  ∃ forecast : Slice → list (Vaccinated num),
    add_extrapolations input
    = Ok (input ++ (set_iter (slice <$> input) ≫= forecast))
    ∧ (∀ slice_,
         (length (trailing_points input max_date slice_) < 2)%nat →
         forecast slice_ = [])
    ∧ (∀ slice_,
         (2 ≤ length (trailing_points input max_date slice_))%nat →
         ∃ m b,
           polyfit (trailing_points input max_date slice_) = (m, b)
           ∧ forecast slice_
             = prediction max_date slice_ m b <$> (Z.of_nat <$> seq 1 51)
           ∧ length (forecast slice_) = 51%nat).
Proof.
  intros Hmax.
  exists (λ slice_,
    let points := trailing_points input max_date slice_ in
    if (length points <=? 1)%nat then []
    else prediction max_date slice_ (polyfit points).1 (polyfit points).2
           <$> (Z.of_nat <$> seq 1 51)).
  split_and!.
  - unfold add_extrapolations.
    unfold real_dates in Hmax.
    rewrite (max_of_latest _ _ Hmax), result_bind_Ok.
    do 2 f_equal. apply bind_ext_in. intros slice_ _.
    rewrite (trailing_points_array _ _ _ Hmax).
    destruct (length _ <=? 1)%nat; [done |].
    destruct (polyfit _) as [m b]. cbn [fst snd]. unfold range_1_52.
    apply list_fmap_ext. intros _ k _.
    unfold prediction, timedelta_weeks. do 2 f_equal; lia.
  - intros slice_ Hlen. cbv beta zeta.
    by rewrite (proj2 (Nat.leb_le _ _)) by lia.
  - intros slice_ Hlen. cbv beta zeta.
    rewrite (proj2 (Nat.leb_gt _ _)) by lia.
    destruct (polyfit _) as [m b] eqn:Hfit. exists m, b. split_and!.
    + done.
    + done.
    + by rewrite !length_fmap, length_seq.
Qed.

End forecasts.

Section forecasts_exact.
Local Existing Instance exact_arith.
Context `{SetOrder} (fit : Polyfit) `{!LeastSquares fit}.



End forecasts_exact.


Section forecasts_python.
Import PrimFloat.
Local Existing Instance python_arith.
Local Existing Instance insertion_order.
Local Existing Instance closed_form_polyfit.


(** The closed form evaluated in binary64 on the fixture: the slope 180/36
    and the intercept 260.0/2 are exact, and the first forecast is the float
    165.0. *)
Lemma add_extrapolations_fixture_binary64 :
  ∃ rest,
    add_extrapolations forecast_input
    = Ok (forecast_input
          ++ mkVaccinated
               (mkSource "prediction" (mkdate 2021 2 14) (mkdate 2021 2 14)
                  "daily")
               (Float 165) forecast_slice true false
             :: rest)
    ∧ length rest = 50%nat.
Proof. eexists. split; vm_compute; reflexivity. Qed.

End forecasts_python.

(** ** Deaggregation by interpolation *)


Section interpolation.
Context `{Arith} `{SetOrder}.


Lemma sum_on_index (rows : list (DimValue * date * num)) (dates : list date)
    (i : nat) (t : date) (p : DimValue → bool) :
  dates !! i = Some t →
  sum_on rows dates i p
  = Ok (sum ((λ r, r.2) <$> filter (λ r, r.1.2 = t ∧ p r.1.1 = true) rows)).
Proof.
  intros Hi. destruct rows as [| r rows]; [done |].
  unfold sum_on, index. by rewrite Hi.
Qed.

(** The sums over the rows of the selected dates are the sums over the
    weekly samples. *)
Lemma sum_on_rows (weekly : list (Vaccinated num)) (dim : Dim)
    (dates : list date) (i : nat) (t : date) (p : DimValue → bool) :
  dates !! i = Some t →
  sum_on ((λ v, (getattr (slice v) dim, real_date (source v), vaccinated v))
            <$> filter (λ v, real_date (source v) ∈ dates) weekly) dates i p
  = Ok (sum (vaccinated
               <$> filter (λ v, real_date (source v) = t
                              ∧ p (getattr (slice v) dim) = true) weekly)).
Proof.
  intros Hi.
  assert (sum (vaccinated
                 <$> filter (λ v, real_date (source v) = t
                                ∧ p (getattr (slice v) dim) = true)
                       (filter (λ v, real_date (source v) ∈ dates) weekly))
          = sum (vaccinated
                   <$> filter (λ v, real_date (source v) = t
                                  ∧ p (getattr (slice v) dim) = true) weekly))
    as Hsum.
  { rewrite list_filter_filter_l; [done |].
    intros v [-> _]. by eapply list_elem_of_lookup_2. }
  rewrite (sum_on_index _ _ _ t) by done. rewrite <- Hsum. f_equal.
  by rewrite filter_fmap, <- list_fmap_compose.
Qed.

Lemma ratio_at_rows (weekly : list (Vaccinated num)) (dim : Dim)
    (dates : list date) (i : nat) (t : date) (x : DimValue) :
  dates !! i = Some t →
  ratio_at ((λ v, (getattr (slice v) dim, real_date (source v), vaccinated v))
              <$> filter (λ v, real_date (source v) ∈ dates) weekly) dates i x
  = truediv (part_on weekly dim t x) (total_on weekly t).
Proof.
  intros Hi. unfold ratio_at.
  rewrite !(sum_on_rows _ _ _ _ t) by done. rewrite !result_bind_Ok.
  unfold part_on, total_on. f_equal.
  - do 2 f_equal. apply list_filter_iff. intros v.
    by rewrite bool_decide_eq_true.
  - do 2 f_equal. apply list_filter_iff. intros v. tauto.
Qed.



End interpolation.

Section interpolation_fixture.
Context `{Arith} `{SetOrder}.

Lemma interpolation_weekly :
  vaccinated_weekly_of (daily_aggregate 100) dim_group interpolation_input
  = [weekly_sample (mkdate 2021 1 1) "A" 60;
     weekly_sample (mkdate 2021 1 1) "B" 40;
     weekly_sample (mkdate 2021 1 8) "A" 45;
     weekly_sample (mkdate 2021 1 8) "B" 55].
Proof. vm_compute. reflexivity. Qed.


End interpolation_fixture.




Section interpolation_python.
Local Existing Instance python_arith.
Local Existing Instance insertion_order.


(** The whole of [add_deaggregates] on the fixture, in one iteration order:
    the group dimension is deaggregated into A = 53 and B = 46, the location
    dimension has no sample and is skipped with a diagnostic. *)
Lemma add_deaggregates_fixture :
  add_deaggregates interpolation_input
  = Ok ([FailedToInterpolate (slice (daily_aggregate 100)) (mkdate 2021 1 4) 0],
        interpolation_input
        ++ [mkVaccinated (source (daily_aggregate 100)) (Int 53)
              (mkSlice DOSE_1 (Group_of "A") Location_ALL) false true;
            mkVaccinated (source (daily_aggregate 100)) (Int 46)
              (mkSlice DOSE_1 (Group_of "B") Location_ALL) false true]).
Proof. vm_compute. reflexivity. Qed.

(** The cast truncates what the floats give: with the shares 1/49 and 48/49
    on both dates, an aggregate of 49 is split into 0 and 48, because
    [49 * (1 / 49)] is 0.9999999999999999 in binary64. *)
Lemma add_deaggregates_sevenths :
  add_deaggregates sevenths_input
  = Ok ([FailedToInterpolate (slice (daily_aggregate 49)) (mkdate 2021 1 4) 0],
        sevenths_input
        ++ [mkVaccinated (source (daily_aggregate 49)) (Int 0)
              (mkSlice DOSE_1 (Group_of "A") Location_ALL) false true;
            mkVaccinated (source (daily_aggregate 49)) (Int 48)
              (mkSlice DOSE_1 (Group_of "B") Location_ALL) false true]).
Proof. vm_compute. reflexivity. Qed.

End interpolation_python.

(** ** The skip of the deaggregator *)

Section skip.
Context `{Arith} `{SetOrder}.

(** With fewer than two matching weekly samples the deaggregator prints its
    diagnostic and yields nothing. *)
Lemma deaggregate_few_samples (aggregate : Vaccinated num) (dim : Dim)
    (input : list (Vaccinated num)) :
  (length (vaccinated_weekly_of aggregate dim input) < 2)%nat →
  deaggregate_with_interpolation aggregate dim input
  = Ok ([FailedToInterpolate (slice aggregate) (real_date (source aggregate))
           (length (vaccinated_weekly_of aggregate dim input))], []).
Proof.
  intros Hlen. unfold deaggregate_with_interpolation.
  by rewrite (proj2 (Nat.ltb_lt _ _) Hlen).
Qed.

(** With two or more matching weekly samples that are all of one date [t],
    the guard on the number of samples passes, one date is selected, and the
    first use of [dates[1]] raises [IndexError] (after the division by the
    total of [t], which raises first when that total is zero). *)
Lemma deaggregate_one_date (aggregate : Vaccinated num) (dim : Dim)
    (input : list (Vaccinated num)) (t : date) :
  (2 ≤ length (vaccinated_weekly_of aggregate dim input))%nat →
  (∀ d, d ∈ real_dates (vaccinated_weekly_of aggregate dim input) → d = t) →
  deaggregate_with_interpolation aggregate dim input
  = Raise (if num_is_zero
                (total_on (vaccinated_weekly_of aggregate dim input) t)
           then ZeroDivisionError else IndexError).
Proof.
  set (weekly := vaccinated_weekly_of aggregate dim input).
  intros Hlen Hone.
  unfold deaggregate_with_interpolation. cbv zeta.
  fold weekly. fold (real_dates weekly).
  rewrite (proj2 (Nat.ltb_ge _ _) Hlen).
  destruct weekly as [| w weekly'] eqn:Hweekly; [simpl in Hlen; lia |].
  rewrite <- Hweekly in *.
  assert (w ∈ weekly) as Hw by (rewrite Hweekly; apply list_elem_of_here).
  assert (real_date (source w) = t) as Ht
    by (apply Hone, list_elem_of_fmap; eauto).
  rewrite (set_iter_single (real_dates weekly) t);
    [| rewrite <- Ht; apply list_elem_of_fmap; eauto | done].
  change (sorted (λ d, d) (take 2 (sorted _ [t]))) with [t].
  destruct (set_iter ((λ v, getattr (slice v) dim) <$> weekly))
    as [| x0 xs] eqn:Hvalues.
  { assert (getattr (slice w) dim
            ∈ set_iter ((λ v, getattr (slice v) dim) <$> weekly)) as Hx
      by (apply set_iter_elem, list_elem_of_fmap; eauto).
    rewrite Hvalues in Hx. by apply not_elem_of_nil in Hx. }
  erewrite yield_each_Raise; [reflexivity |].
  rewrite (ratio_at_rows _ _ _ 0 t) by done.
  destruct (num_is_zero (total_on weekly t)) eqn:Hzero.
  { by rewrite (truediv_zero _ _ Hzero). }
  rewrite (truediv_nonzero _ _ Hzero), result_bind_Ok.
  unfold ratio_at.
  assert (filter (λ v, real_date (source v) ∈ [t]) weekly = weekly) as ->.
  { apply filter_all, Forall_forall. intros v Hv.
    apply list_elem_of_singleton, Hone, list_elem_of_fmap. eauto. }
  rewrite Hweekly. done.
Qed.

Lemma one_week_weekly :
  vaccinated_weekly_of (daily_aggregate 100) dim_group one_week_input
  = [weekly_sample (mkdate 2021 1 1) "A" 60;
     weekly_sample (mkdate 2021 1 1) "B" 40].
Proof. vm_compute. reflexivity. Qed.

Lemma one_week_deaggregate_raises :
  deaggregate_with_interpolation (daily_aggregate 100) dim_group one_week_input
  = Raise IndexError.
Proof.
  rewrite (deaggregate_one_date _ _ _ (mkdate 2021 1 1)).
  - rewrite one_week_weekly.
    change (total_on _ _)
      with (num_add (num_add (num_of_Z 0) (num_of_Z 60)) (num_of_Z 40)).
    by rewrite !num_add_of_Z, num_is_zero_of_Z.
  - rewrite one_week_weekly. simpl. lia.
  - rewrite one_week_weekly. intros d Hd.
    apply elem_of_cons in Hd as [-> | Hd]; [done |].
    by apply list_elem_of_singleton in Hd as ->.
Qed.

(** The exception of the deaggregator ends [add_deaggregates], in whatever
    order the sets are iterated. *)
Lemma one_week_add_deaggregates_raises :
  add_deaggregates one_week_input = Raise IndexError.
Proof.
  unfold add_deaggregates.
  change (filter (λ v, period (source v) = "daily") one_week_input)
    with [daily_aggregate 100].
  rewrite (set_iter_single _ (mkdate 2021 1 4));
    [| apply list_elem_of_here
     | by intros d ->%list_elem_of_singleton].
  change (for_each SLICE_DIMS ?body ([], []))
    with (for_each [dim_group; dim_location] body ([], [])).
  cbn [for_each].
  change (filter (λ v, real_date (source v) = mkdate 2021 1 4)
            [daily_aggregate 100])
    with [daily_aggregate 100].
  change (filter (λ v, is_all (getattr (slice v) dim_group) = true)
            [daily_aggregate 100]) with [daily_aggregate 100].
  cbn [for_each].
  assert (deaggregate_step one_week_input dim_group [daily_aggregate 100]
            (daily_aggregate 100) ([], []) = Raise IndexError) as ->; [| done].
  unfold deaggregate_step.
  change (unaggregates_of (daily_aggregate 100) dim_group [daily_aggregate 100])
    with (@nil (Vaccinated num)).
  cbn [length Nat.eqb]. by rewrite one_week_deaggregate_raises.
Qed.

(** C3: two weekly samples of the same single date pass the guard, which
    counts samples and not dates, and the deaggregator raises [IndexError]
    instead of printing the diagnostic and yielding nothing; the exception
    ends [add_deaggregates].  With fewer than two samples the skip works. *)
Theorem deaggregate_one_date_raises :
  real_dates
    (vaccinated_weekly_of (daily_aggregate 100) dim_group one_week_input)
  = [mkdate 2021 1 1; mkdate 2021 1 1]
  ∧ deaggregate_with_interpolation (daily_aggregate 100) dim_group
      one_week_input
    = Raise IndexError
  ∧ add_deaggregates one_week_input = Raise IndexError
  ∧ deaggregate_with_interpolation (daily_aggregate 100) dim_group
      [daily_aggregate 100; weekly_sample (mkdate 2021 1 1) "A" 60]
    = Ok ([FailedToInterpolate (slice (daily_aggregate 100))
             (mkdate 2021 1 4) 1], []).
Proof.
  split_and!.
  - by rewrite one_week_weekly.
  - apply one_week_deaggregate_raises.
  - apply one_week_add_deaggregates_raises.
  - rewrite deaggregate_few_samples; [done | vm_compute; lia].
Qed.

End skip.

(** ** Peers and the consistency check *)

Section peers.
Context `{Arith}.

(** On the dose dimension the loop's peers are the specification's. *)
Lemma unaggregates_of_dose (aggregate : Vaccinated num)
    (input : list (Vaccinated num)) :
  unaggregates_of aggregate dim_dose (vaccinated_on_date_of aggregate input)
  = peers_of aggregate dim_dose input.
Proof.
  unfold unaggregates_of, vaccinated_on_date_of, peers_of.
  rewrite !list_filter_filter. apply list_filter_iff. intros v.
  change (other_dims dim_dose) with [dim_group; dim_location].
  rewrite !Forall_cons, Forall_nil. unfold getattr.
  split; [tauto |].
  intros (? & ? & ? & (Hg & ?) & (Hl & ?) & _).
  split_and!; try done; congruence.
Qed.

(** On the group and location dimensions the loop finds no peer, whatever
    the observations: it asks of a peer the aggregate's own group and
    location, and the aggregate is wildcard on the dimension. *)
Lemma unaggregates_of_group_location (aggregate : Vaccinated num) (dim : Dim)
    (vs : list (Vaccinated num)) :
  dim ≠ dim_dose → is_all (getattr (slice aggregate) dim) = true →
  unaggregates_of aggregate dim vs = [].
Proof.
  intros Hdim Hall. apply filter_none, Forall_forall.
  intros v _ (Hv & _ & Hg & Hl).
  destruct dim; [done | |]; unfold getattr in *.
  - rewrite Hg in Hv. congruence.
  - rewrite Hl in Hv. congruence.
Qed.

(** The [assert] passes exactly when the difference is below 1000 or its
    share of the peers' sum is below 0.05; a zero sum with a difference of
    1000 or more is a division by zero. *)
Lemma check_unaggregates_cases (aggregate : Vaccinated num)
    (peers : list (Vaccinated num)) :
  check_unaggregates aggregate peers
  = if num_lt (difference_of aggregate peers) (num_of_Z 1000) then Ok ()
    else if num_is_zero (sum (vaccinated <$> peers))
         then Raise ZeroDivisionError
    else if num_lt (num_div (difference_of aggregate peers)
                      (sum (vaccinated <$> peers))) num_0_05
         then Ok ()
    else Raise AssertionError.
Proof.
  unfold check_unaggregates, difference_of, truediv.
  destruct (num_lt _ (num_of_Z 1000)); [done |].
  by destruct (num_is_zero _).
Qed.

End peers.

(** C2: for the dose dimension the observations that [add_deaggregates]
    takes for the peers of an aggregate are the specification's peers.  For
    the group and the location dimension it takes none, whatever the input,
    so the consistency check never runs there and every such aggregate is
    interpolated: on [peers_input] the aggregate over the groups has the two
    peers A and B of the specification, and [add_deaggregates] adds
    interpolated observations for A and B. *)
Theorem unaggregates_of_not_peers :
  (∀ (A : Arith) (aggregate : Vaccinated num) input,
     unaggregates_of aggregate dim_dose (vaccinated_on_date_of aggregate input)
     = peers_of aggregate dim_dose input)
  ∧ (∀ (A : Arith) (aggregate : Vaccinated num) dim vs,
       dim ≠ dim_dose → is_all (getattr (slice aggregate) dim) = true →
       unaggregates_of aggregate dim vs = [])
  ∧ (∀ A : Arith,
       peers_of (england "daily" (mkdate 2021 1 4) Group_ALL 100) dim_group
         peers_input
       = [england "daily" (mkdate 2021 1 4) (Group_of "A") 60;
          england "daily" (mkdate 2021 1 4) (Group_of "B") 40]
       ∧ unaggregates_of (england "daily" (mkdate 2021 1 4) Group_ALL 100)
           dim_group
           (vaccinated_on_date_of
              (england "daily" (mkdate 2021 1 4) Group_ALL 100) peers_input)
         = [])
  ∧ @add_deaggregates python_arith insertion_order peers_input
    = Ok ([],
          @peers_input python_arith
          ++ [mkVaccinated
                (mkSource "report" (mkdate 2021 1 4) (mkdate 2021 1 4) "daily")
                (Int 53)
                (mkSlice DOSE_1 (Group_of "A") (Location_of "England"))
                false true;
              mkVaccinated
                (mkSource "report" (mkdate 2021 1 4) (mkdate 2021 1 4) "daily")
                (Int 46)
                (mkSlice DOSE_1 (Group_of "B") (Location_of "England"))
                false true]).
Proof.
  split_and!.
  - intros A. apply unaggregates_of_dose.
  - intros A. apply unaggregates_of_group_location.
  - intros A. split.
    + vm_compute. reflexivity.
    + by apply unaggregates_of_group_location.
  - vm_compute. reflexivity.
Qed.

(** C4: the check of an aggregate against its peers passes exactly when the
    difference is below 1000 or its share of the peers' sum is below 0.05,
    and raises [AssertionError] exactly when neither holds and the sum is
    not zero (the share of a zero sum is a division by zero); an aggregate
    with peers adds no observation.  But [add_deaggregates] also raises
    where no aggregate has a peer: on [one_week_input] the deaggregator
    raises [IndexError].  And it returns where an aggregate is out of
    tolerance: on [inconsistent_input] the aggregate over the groups is 4900
    above its two peers, the loop takes none for its peers and
    interpolates. *)
Theorem add_deaggregates_raises_without_peers :
  (∀ (A : Arith) (aggregate : Vaccinated num) peers,
     (check_unaggregates aggregate peers = Ok ()
      ↔ num_lt (difference_of aggregate peers) (num_of_Z 1000) = true
        ∨ (num_is_zero (sum (vaccinated <$> peers)) = false
           ∧ num_lt (num_div (difference_of aggregate peers)
                       (sum (vaccinated <$> peers))) num_0_05 = true))
     ∧ (check_unaggregates aggregate peers = Raise AssertionError
        ↔ num_lt (difference_of aggregate peers) (num_of_Z 1000) = false
          ∧ num_is_zero (sum (vaccinated <$> peers)) = false
          ∧ num_lt (num_div (difference_of aggregate peers)
                      (sum (vaccinated <$> peers))) num_0_05 = false))
  ∧ (∀ (A : Arith) (order : SetOrder) (input : list (Vaccinated num)) dim
       vaccinated_on_date aggregate st,
       unaggregates_of aggregate dim vaccinated_on_date ≠ [] →
       deaggregate_step input dim vaccinated_on_date aggregate st
       = _ ← check_unaggregates aggregate
               (unaggregates_of aggregate dim vaccinated_on_date);
         Ok st)
  ∧ (∀ (A : Arith) (order : SetOrder),
       (∀ aggregate dim,
          aggregate ∈ one_week_input →
          peers_of aggregate dim one_week_input = []
          ∧ unaggregates_of aggregate dim
              (vaccinated_on_date_of aggregate one_week_input) = [])
       ∧ add_deaggregates one_week_input = Raise IndexError)
  ∧ peers_of (@england python_arith "daily" (mkdate 2021 1 4) Group_ALL 5000)
      dim_group inconsistent_input
    = [england "daily" (mkdate 2021 1 4) (Group_of "A") 60;
       england "daily" (mkdate 2021 1 4) (Group_of "B") 40]
  ∧ @check_unaggregates python_arith
      (england "daily" (mkdate 2021 1 4) Group_ALL 5000)
      [england "daily" (mkdate 2021 1 4) (Group_of "A") 60;
       england "daily" (mkdate 2021 1 4) (Group_of "B") 40]
    = Raise AssertionError
  ∧ ∃ deaggregates,
      @add_deaggregates python_arith insertion_order inconsistent_input
      = Ok ([], @inconsistent_input python_arith ++ deaggregates).
Proof.
  split_and!.
  - intros A aggregate peers. rewrite check_unaggregates_cases.
    destruct (num_lt _ (num_of_Z 1000)), (num_is_zero _), (num_lt _ num_0_05);
      split; split; intros; (done || tauto || intuition discriminate).
  - intros A order input dim vaccinated_on_date aggregate st Hpeers.
    unfold deaggregate_step.
    destruct (unaggregates_of aggregate dim vaccinated_on_date); done.
  - intros A order. split.
    + intros aggregate dim Hin.
      unfold one_week_input in Hin. rewrite !elem_of_cons, elem_of_nil in Hin.
      destruct Hin as [-> | [-> | [-> | []]]]; destruct dim;
        split; vm_compute; reflexivity.
    + apply one_week_add_deaggregates_raises.
  - vm_compute. reflexivity.
  - vm_compute. reflexivity.
  - eexists. vm_compute. reflexivity.
Qed.

(** ** More on cumulative and non-cumulative counts *)

Section conversions.
Context `{Arith} `{SetOrder}.

Lemma accumulate_fmap {B} (f : Vaccinated num → B) (c : num)
    (vs : list (Vaccinated num)) :
  (∀ v x, f (replace_vaccinated v x) = f v) →
  f <$> accumulate c vs = f <$> vs.
Proof.
  intros Hf. revert c. induction vs as [| v vs IH]; intros c; [done |].
  simpl. by rewrite Hf, IH.
Qed.

Lemma fmap_bind_list {A B C} (f : B → C) (g : A → list B) (l : list A) :
  f <$> (l ≫= g) = l ≫= (λ x, f <$> g x).
Proof.
  induction l as [| x l IH]; [done |].
  by rewrite !bind_cons, fmap_app, IH.
Qed.

(** Grouping by the slice, in any order of the slices, and handling each
    slice's series without touching anything but the counts, leaves a
    reordering of the input as far as the other fields go. *)
Lemma grouped_without_count (input : list (Vaccinated num))
    (g : list (Vaccinated num) → list (Vaccinated num)) :
  (∀ vs, without_count <$> g vs = without_count <$> vs) →
  without_count
    <$> (set_iter (slice <$> input) ≫= λ slice_, g (series input slice_))
  ≡ₚ without_count <$> input.
Proof.
  intros Hg. rewrite fmap_bind_list.
  rewrite (bind_Permutation_pointwise _
             (λ slice_, without_count
                          <$> filter (λ v, slice v = slice_) input)).
  - rewrite <- fmap_bind_list. apply fmap_Permutation.
    apply bind_filter_Permutation; [apply set_iter_NoDup |].
    intros v Hv. apply set_iter_elem, list_elem_of_fmap. eauto.
  - intros slice_. rewrite Hg. apply fmap_Permutation, series_Permutation.
Qed.

(** [make_cumulative] is the running total of every slice's series. *)
Lemma make_cumulative_series (input : list (Vaccinated num)) :
  make_cumulative input
  = set_iter (slice <$> input)
      ≫= λ slice_, accumulate (num_of_Z 0) (series input slice_).
Proof. done. Qed.

(** For every input, [make_non_cumulative] returns ([vs[0]] exists for each
    slice of the set, and the empty input yields nothing); what it returns
    has one observation for each one of the input, with the same source,
    slice and flags: only counts differ. *)
Theorem make_non_cumulative_keeps_observations (input : list (Vaccinated num)) :
  ∃ non_cumulative,
    make_non_cumulative input = Ok non_cumulative
    ∧ without_count <$> non_cumulative ≡ₚ without_count <$> input
    ∧ length non_cumulative = length input
    ∧ (input = [] → non_cumulative = []).
Proof.
  eexists. split; [apply make_non_cumulative_series |].
  assert (without_count
            <$> (set_iter (slice <$> input)
                   ≫= λ slice_, first_differences (series input slice_))
          ≡ₚ without_count <$> input) as Hperm.
  { apply (grouped_without_count input first_differences).
    intros vs. by apply first_differences_fmap. }
  split_and!.
  - exact Hperm.
  - apply Permutation_length in Hperm. by rewrite !length_fmap in Hperm.
  - intros ->. apply Permutation_length in Hperm.
    rewrite !length_fmap in Hperm. by apply nil_length_inv.
Qed.

Lemma make_cumulative_without_count (input : list (Vaccinated num)) :
  without_count <$> make_cumulative input ≡ₚ without_count <$> input.
Proof.
  rewrite make_cumulative_series.
  apply (grouped_without_count input (accumulate (num_of_Z 0))).
  intros vs. by apply accumulate_fmap.
Qed.

(** [make_cumulative] returns one observation for each one of the input,
    with the same source, slice and flags; within a slice the observations
    come in ascending order of real date, whatever the order of the input. *)
Theorem make_cumulative_keeps_observations (input : list (Vaccinated num)) :
  without_count <$> make_cumulative input ≡ₚ without_count <$> input
  ∧ length (make_cumulative input) = length input
  ∧ ∀ slice_,
      Sorted Z.le
        (by_real_date <$> filter (λ v, slice v = slice_) (make_cumulative input)).
Proof.
  pose proof (make_cumulative_without_count input) as Hperm.
  split_and!.
  - exact Hperm.
  - apply Permutation_length in Hperm. by rewrite !length_fmap in Hperm.
  - intros slice_. rewrite make_cumulative_series.
    rewrite (filter_bind_group slice).
    + destruct (decide _); [| constructor].
      rewrite accumulate_fmap by done. apply sorted_Sorted.
    + apply set_iter_NoDup.
    + intros s' w Hw.
      assert (slice w ∈ slice <$> accumulate (num_of_Z 0) (series input s'))
        as Hsl by (apply list_elem_of_fmap; eauto).
      rewrite accumulate_fmap in Hsl by done.
      apply list_elem_of_fmap in Hsl as (u & -> & Hu).
      by apply series_slice in Hu.
Qed.

End conversions.

Section conversions_back.
Context `{Arith} `{SetOrder}.

(** On ints, subtracting a count from the running total it was added to
    gives the count added. *)
Lemma differences_accumulate (p : Z) (vs : list (Vaccinated num)) :
  int_counts vs →
  differences (num_of_Z p) (accumulate (num_of_Z p) vs) = vs.
Proof.
  intros Hint. revert p.
  induction Hint as [| v vs [z Hz] _ IH]; intros p; [done |].
  simpl. rewrite Hz, num_add_of_Z, num_sub_of_Z.
  replace (p + z - p) with z by lia.
  rewrite IH. f_equal. destruct v; simpl in *; by subst.
Qed.

Lemma first_differences_accumulate (vs : list (Vaccinated num)) :
  int_counts vs →
  first_differences (accumulate (num_of_Z 0) vs) = vs.
Proof.
  intros Hint. destruct Hint as [| v vs [z Hz] Hint]; [done |].
  simpl. rewrite Hz, num_add_of_Z. replace (0 + z) with z by lia.
  rewrite differences_accumulate by done.
  f_equal. destruct v; simpl in *; by subst.
Qed.

Lemma cumulative_slices (input : list (Vaccinated num)) (s : Slice) :
  s ∈ slice <$> make_cumulative input ↔ s ∈ slice <$> input.
Proof.
  pose proof (make_cumulative_without_count input) as Hperm.
  apply (fmap_Permutation (λ x, x.1.1.2)) in Hperm.
  rewrite <- !list_fmap_compose in Hperm.
  change ((λ x, x.1.1.2) ∘ without_count) with (@slice num) in Hperm.
  by rewrite Hperm.
Qed.

(** The series of a slice in the result of [make_cumulative] is the running
    total of its series in the input. *)
Lemma series_make_cumulative (input : list (Vaccinated num)) (s : Slice) :
  s ∈ slice <$> input →
  series (make_cumulative input) s = accumulate (num_of_Z 0) (series input s).
Proof.
  intros Hs. unfold series at 1. rewrite make_cumulative_series.
  rewrite (filter_bind_group slice).
  - rewrite decide_True by (by apply set_iter_elem).
    apply sorted_already. rewrite accumulate_fmap by done. apply sorted_Sorted.
  - apply set_iter_NoDup.
  - intros s' w Hw.
    assert (slice w ∈ slice <$> accumulate (num_of_Z 0) (series input s'))
      as Hsl by (apply list_elem_of_fmap; eauto).
    rewrite accumulate_fmap in Hsl by done.
    apply list_elem_of_fmap in Hsl as (u & -> & Hu).
    by apply series_slice in Hu.
Qed.

(** The round trip the other way: on int counts, the first-differences of
    the running totals are the counts, so [make_non_cumulative] after
    [make_cumulative] returns the observations of the input, reordered
    only. *)
Theorem non_cumulative_of_cumulative (input : list (Vaccinated num)) :
  int_counts input →
  ∃ output,
    make_non_cumulative (make_cumulative input) = Ok output
    ∧ output
      = set_iter (slice <$> make_cumulative input) ≫= series input
    ∧ output ≡ₚ input.
Proof.
  intros Hint. rewrite make_non_cumulative_series.
  assert (set_iter (slice <$> make_cumulative input)
            ≫= (λ slice_,
                  first_differences (series (make_cumulative input) slice_))
          = set_iter (slice <$> make_cumulative input) ≫= series input)
    as Heq.
  { apply bind_ext_in. intros s Hs.
    rewrite set_iter_elem, cumulative_slices in Hs.
    rewrite series_make_cumulative by done.
    apply first_differences_accumulate. by apply series_int_counts. }
  eexists. split; [done |]. split; [exact Heq |].
  rewrite Heq.
  rewrite (bind_Permutation_pointwise _ _ _ (series_Permutation input)).
  apply bind_filter_Permutation; [apply set_iter_NoDup |].
  intros v Hv. apply set_iter_elem, cumulative_slices, list_elem_of_fmap.
  eauto.
Qed.

End conversions_back.

Section conversions_python.
Local Existing Instance python_arith.
Local Existing Instance insertion_order.

Lemma non_cumulative_of_cumulative_witness :
  int_counts cumulative_input
  ∧ ∃ output,
      make_non_cumulative (make_cumulative cumulative_input) = Ok output
      ∧ output ≡ₚ cumulative_input.
Proof.
  assert (int_counts cumulative_input) as Hint
    by (repeat constructor; by eexists).
  split; [exact Hint |].
  destruct (non_cumulative_of_cumulative cumulative_input Hint)
    as (output & Hout & _ & Hperm).
  exists output. split; [exact Hout | exact Hperm].
Defined.

End conversions_python.

(** ** The dose-1 floor, applied again *)

Section dose_lag_again.
Context `{Arith}.

Lemma num_max_again (a b : num) : num_max (num_max a b) b = num_max a b.
Proof.
  unfold num_max. destruct (num_lt a b) eqn:Hab.
  - by destruct (num_lt b b).
  - by rewrite Hab.
Qed.

(** The floor changes no dose-1 observation and makes none, so the lookup
    built from its result is the lookup built from its input. *)
Lemma dose1s_by_date_slice_lag (input : list (Vaccinated num)) :
  dose1s_by_date_slice_of (add_12w_dose_lag input)
  = dose1s_by_date_slice_of input.
Proof.
  unfold dose1s_by_date_slice_of at 1 2. f_equal.
  unfold add_12w_dose_lag. cbv zeta.
  generalize (dose1s_by_date_slice_of input). intros m.
  induction input as [| v input IH]; [done |].
  rewrite fmap_cons, !filter_cons, IH.
  destruct (decide (dose (slice v) ≠ DOSE_2)) as [Hne | Heq]; [done |].
  assert (dose (slice v) = DOSE_2) as Hd
    by (destruct (decide (dose (slice v) = DOSE_2)); [done | by destruct Heq]).
  destruct (_ !! _); simpl; by rewrite !decide_False by (rewrite Hd; done).
Qed.

(** [add_12w_dose_lag] changes counts and the extrapolated flag only, and a
    second application changes nothing more: the dose-1 counts it looks up
    are untouched by the first, and the maximum with the same dose-1 count
    is already taken. *)
Theorem add_12w_dose_lag_again (input : list (Vaccinated num)) :
  add_12w_dose_lag (add_12w_dose_lag input) = add_12w_dose_lag input
  ∧ (λ v, (source v, slice v, interpolated v)) <$> add_12w_dose_lag input
    = (λ v, (source v, slice v, interpolated v)) <$> input
  ∧ filter (λ v, dose (slice v) ≠ DOSE_2) (add_12w_dose_lag input)
    = filter (λ v, dose (slice v) ≠ DOSE_2) input.
Proof.
  split_and!.
  - unfold add_12w_dose_lag at 1. cbv zeta.
    rewrite dose1s_by_date_slice_lag.
    unfold add_12w_dose_lag. cbv zeta.
    rewrite <- list_fmap_compose. apply list_fmap_ext. intros _ v _. simpl.
    destruct (decide (dose (slice v) ≠ DOSE_2)) as [Hne | Heq].
    { by rewrite decide_True. }
    destruct (_ !! _) as [dose1 |] eqn:Hlookup; simpl.
    + rewrite decide_False by done. rewrite Hlookup.
      by rewrite num_max_again.
    + rewrite decide_False by done. by rewrite Hlookup.
  - unfold add_12w_dose_lag. cbv zeta. rewrite <- list_fmap_compose.
    apply list_fmap_ext. intros _ v _. simpl.
    destruct (decide _); [done |]. by destruct (_ !! _).
  - unfold add_12w_dose_lag. cbv zeta.
    generalize (dose1s_by_date_slice_of input). intros m.
    induction input as [| v input IH]; [done |].
    rewrite fmap_cons, !filter_cons, IH.
    destruct (decide (dose (slice v) ≠ DOSE_2)) as [Hne | Heq].
    { by rewrite decide_True. }
    destruct (_ !! _); simpl; by rewrite decide_False.
Qed.

End dose_lag_again.

(** ** What the deaggregator adds *)

(** What holds of the state before a loop and is kept by every round that
    returns holds of the state the loop returns. *)
Lemma for_each_invariant {A S} (P : S → Prop) (l : list A)
    (body : A → S → result S) (s s' : S) :
  P s →
  (∀ x t t', x ∈ l → P t → body x t = Ok t' → P t') →
  for_each l body s = Ok s' → P s'.
Proof.
  revert s. induction l as [| x l IH]; intros s Hs Hbody.
  - by intros [= <-].
  - simpl. destruct (body x s) as [t |] eqn:Hx; [| done]. simpl.
    apply IH.
    + by apply (Hbody x s t); [apply list_elem_of_here | |].
    + intros y u u' Hy. apply Hbody. by apply list_elem_of_further.
Qed.

(** A loop whose every round returns the state it got returns the state it
    started with. *)
Lemma for_each_unchanged {A S} (l : list A) (body : A → S → result S) (s : S) :
  (∀ x, x ∈ l → ∀ t, body x t = Ok t) → for_each l body s = Ok s.
Proof.
  induction l as [| x l IH]; intros Hbody; [done |].
  simpl. rewrite Hbody by apply list_elem_of_here. simpl.
  apply IH. intros y Hy. by apply Hbody, list_elem_of_further.
Qed.

Lemma yield_each_Ok_elem {A B} (f : A → result B) (l : list A) (ys : list B)
    (y : B) :
  yield_each f l = Ok ys → y ∈ ys → ∃ x, x ∈ l ∧ f x = Ok y.
Proof.
  intros Hys%yield_each_Ok_inv Hy.
  induction Hys as [| x y' l ys Hx _ IH]; [by apply not_elem_of_nil in Hy |].
  apply elem_of_cons in Hy as [-> | Hy].
  - exists x. split; [apply list_elem_of_here | done].
  - destruct (IH Hy) as (x' & Hin & Hx'). exists x'.
    split; [by apply list_elem_of_further | done].
Qed.

(** The first step of a computation that returns has returned. *)
Ltac bind_Ok H :=
  repeat match type of H with
         | mbind _ ?r = Ok _ =>
             destruct r eqn:?; simpl in H; [| discriminate H]
         end.

Section deaggregates.
Context `{Arith} `{SetOrder}.

(** Setting the dimension of a slice to the value of another slice that
    agrees with it on the other dimensions gives that other slice. *)
Lemma replace_dim_matching (s s' : Slice) (dim : Dim) :
  Forall (λ other_dim, getattr s' other_dim = getattr s other_dim)
    (other_dims dim) →
  replace_dim s dim (getattr s' dim) = s'.
Proof.
  destruct s, s', dim; intros Hother;
    apply Forall_cons in Hother as [[= ?] Hother];
    apply Forall_cons in Hother as [[= ?] _]; simpl; congruence.
Qed.

(** Whatever the deaggregator yields for an aggregate when it returns is
    made from the aggregate with the value of a matching weekly sample. *)
Lemma deaggregate_yields (aggregate : Vaccinated num) (dim : Dim)
    (input : list (Vaccinated num)) printed yielded :
  deaggregate_with_interpolation aggregate dim input = Ok (printed, yielded) →
  Forall (λ v, ∃ w, deaggregated_from input aggregate dim w v) yielded.
Proof.
  unfold deaggregate_with_interpolation. cbv zeta.
  destruct (length _ <? 2)%nat; [intros [= <- <-]; constructor |].
  intros Hok. bind_Ok Hok. injection Hok as <- <-.
  apply Forall_forall. intros v Hv.
  match goal with
  | Hys : yield_each _ _ = Ok _ |- _ =>
      destruct (yield_each_Ok_elem _ _ _ v Hys Hv) as (x & Hx & Hbody)
  end.
  apply set_iter_elem, list_elem_of_fmap in Hx as (w & -> & Hw).
  apply list_elem_of_filter in Hw as [(Hweekly & Hall & Hother) Hin].
  bind_Ok Hbody. injection Hbody as <-.
  exists w. unfold deaggregated_from. split_and!; try done; [| by eexists].
  simpl. by apply replace_dim_matching.
Qed.

End deaggregates.

Section deaggregates_added.
Context `{Arith} `{SetOrder}.

(** When [add_deaggregates] returns, its result is the input as it was,
    followed by what it added; every added observation is made from a daily
    observation of the input that is wildcard on a dimension, with the
    non-wildcard value that a weekly observation of the input has on that
    dimension: it carries the aggregate's source and the weekly
    observation's slice, has an int count and is flagged interpolated and
    not extrapolated. *)
Theorem add_deaggregates_adds_interpolated (input : list (Vaccinated num))
    printed output :
  add_deaggregates input = Ok (printed, output) →
  ∃ added,
    output = input ++ added
    ∧ Forall (λ v, ∃ aggregate dim w,
                aggregate ∈ input
                ∧ period (source aggregate) = "daily"
                ∧ is_all (getattr (slice aggregate) dim) = true
                ∧ deaggregated_from input aggregate dim w v) added.
Proof.
  unfold add_deaggregates. cbv zeta. intros Hok.
  destruct (for_each SLICE_DIMS _ _) as [st |] eqn:Hloop; [| done].
  injection Hok as <- <-. exists st.2. split; [done |].
  set (Q := λ v : Vaccinated num, ∃ aggregate dim w,
              aggregate ∈ input
              ∧ period (source aggregate) = "daily"
              ∧ is_all (getattr (slice aggregate) dim) = true
              ∧ deaggregated_from input aggregate dim w v).
  revert Hloop.
  apply (for_each_invariant
           (λ st : list Diagnostic * list (Vaccinated num), Forall Q st.2));
    [constructor |].
  intros dim t t' _ Ht.
  apply (for_each_invariant
           (λ st : list Diagnostic * list (Vaccinated num), Forall Q st.2));
    [done |].
  clear t t' Ht. intros real_date_ t t' _ Ht.
  apply (for_each_invariant
           (λ st : list Diagnostic * list (Vaccinated num), Forall Q st.2));
    [done |].
  clear t t' Ht. intros aggregate t t' Hagg Ht.
  apply list_elem_of_filter in Hagg as [Hall Hagg].
  apply list_elem_of_filter in Hagg as [_ Hagg].
  apply list_elem_of_filter in Hagg as [Hdaily Hagg].
  unfold deaggregate_step. cbv zeta.
  destruct (length _ =? 0)%nat.
  - intros Hstep. bind_Ok Hstep. injection Hstep as <-. simpl.
    apply Forall_app. split; [done |].
    match goal with
    | Hd : deaggregate_with_interpolation _ _ _ = Ok ?r |- _ =>
        destruct r as [printed' yielded];
        apply deaggregate_yields in Hd
    end.
    eapply Forall_impl; [eassumption |].
    intros v [w Hv]. by exists aggregate, dim, w.
  - intros Hstep. bind_Ok Hstep. by injection Hstep as <-.
Qed.

(** Without a daily observation that is wildcard on a dimension there is
    nothing to deaggregate: [add_deaggregates] returns the input as it is
    and prints nothing, whatever the weekly observations; so it does for an
    input without daily observations, and for the empty input. *)
Theorem add_deaggregates_no_aggregate (input : list (Vaccinated num)) :
  Forall (λ v, period (source v) = "daily" →
               ∀ dim, is_all (getattr (slice v) dim) = false) input →
  add_deaggregates input = Ok ([], input).
Proof.
  intros Hnone. unfold add_deaggregates. cbv zeta.
  rewrite (for_each_unchanged SLICE_DIMS); [simpl; by rewrite app_nil_r |].
  intros dim _ st. apply for_each_unchanged. intros real_date_ _ st'.
  rewrite (filter_none _ (filter _ _)); [done |].
  apply Forall_forall. intros v [_ Hv]%list_elem_of_filter.
  apply list_elem_of_filter in Hv as [Hdaily Hv].
  rewrite (proj1 (Forall_forall _ _) Hnone v Hv Hdaily dim). done.
Qed.

(** When the matching weekly samples of an aggregate are two or more and
    all of one date [t], the deaggregator raises: [IndexError] at
    [dates[1]], or [ZeroDivisionError] before it when the samples of [t] sum
    to zero; and so does the round of the loop of [add_deaggregates] for an
    aggregate without peers. *)
Theorem deaggregate_single_date_raises (aggregate : Vaccinated num)
    (dim : Dim) (input : list (Vaccinated num)) (t : date) :
  (2 ≤ length (vaccinated_weekly_of aggregate dim input))%nat →
  (∀ d, d ∈ real_dates (vaccinated_weekly_of aggregate dim input) → d = t) →
  let error :=
    if num_is_zero (total_on (vaccinated_weekly_of aggregate dim input) t)
    then ZeroDivisionError else IndexError in
  deaggregate_with_interpolation aggregate dim input = Raise error
  ∧ ∀ vaccinated_on_date st,
      unaggregates_of aggregate dim vaccinated_on_date = [] →
      deaggregate_step input dim vaccinated_on_date aggregate st = Raise error.
Proof.
  intros Hlen Hone error.
  pose proof (deaggregate_one_date aggregate dim input t Hlen Hone) as Hraise.
  split; [exact Hraise |].
  intros vaccinated_on_date st Hnone. unfold deaggregate_step.
  by rewrite Hnone, Hraise.
Qed.

(** Of what the deaggregator yields, [remove_aggregates] drops every
    observation deaggregated over the locations (it has a location), and
    keeps every observation deaggregated over the groups from a daily
    aggregate with a dose and the wildcard location. *)
Theorem remove_aggregates_of_deaggregates (aggregate : Vaccinated num)
    (input : list (Vaccinated num)) :
  (∀ printed yielded,
     deaggregate_with_interpolation aggregate dim_location input
     = Ok (printed, yielded) →
     remove_aggregates yielded = [])
  ∧ (∀ printed yielded,
       period (source aggregate) = "daily" →
       is_all (VDose (dose (slice aggregate))) = false →
       is_all (VLocation (location (slice aggregate))) = true →
       deaggregate_with_interpolation aggregate dim_group input
       = Ok (printed, yielded) →
       remove_aggregates yielded = yielded).
Proof.
  split.
  - intros printed yielded Hok%deaggregate_yields.
    rewrite remove_aggregates_filter. apply filter_none.
    eapply Forall_impl; [exact Hok |].
    intros v (w & _ & _ & Hall & _ & Hslice & _ & _) (_ & _ & Hl & _).
    rewrite Hslice in Hl. simpl in *. congruence.
  - intros printed yielded Hdaily Hdose Hloc Hok%deaggregate_yields.
    rewrite remove_aggregates_filter. apply filter_all.
    eapply Forall_impl; [exact Hok |].
    intros v (w & _ & _ & Hall & Hsource & Hslice & _ & _).
    unfold retained. rewrite Hslice, Hsource. simpl.
    split_and!; [done | done | done |].
    intros [Hweekly _]. congruence.
Qed.

End deaggregates_added.

Section deaggregates_python.
Local Existing Instance python_arith.
Local Existing Instance insertion_order.

Lemma add_deaggregates_adds_interpolated_witness :
  add_deaggregates interpolation_input
  = Ok ([FailedToInterpolate (slice (daily_aggregate 100)) (mkdate 2021 1 4) 0],
        interpolation_input
        ++ [mkVaccinated (source (daily_aggregate 100)) (Int 53)
              (mkSlice DOSE_1 (Group_of "A") Location_ALL) false true;
            mkVaccinated (source (daily_aggregate 100)) (Int 46)
              (mkSlice DOSE_1 (Group_of "B") Location_ALL) false true])
  ∧ ∃ added,
      interpolation_input
      ++ [mkVaccinated (source (daily_aggregate 100)) (Int 53)
            (mkSlice DOSE_1 (Group_of "A") Location_ALL) false true;
          mkVaccinated (source (daily_aggregate 100)) (Int 46)
            (mkSlice DOSE_1 (Group_of "B") Location_ALL) false true]
      = interpolation_input ++ added
      ∧ Forall (λ v, interpolated v = true) added.
Proof.
  split; [exact add_deaggregates_fixture |].
  destruct (add_deaggregates_adds_interpolated interpolation_input _ _
              add_deaggregates_fixture) as (added & Heq & Hadded).
  exists added. split; [exact Heq |].
  eapply Forall_impl; [exact Hadded |].
  intros v (aggregate & dim & w & _ & _ & _ & Hv).
  exact (proj1 (proj2 (proj2 (proj2 (proj2 (proj2 (proj2 Hv))))))).
Defined.

Lemma add_deaggregates_no_aggregate_witness :
  Forall (λ v : Vaccinated number,
            period (source v) = "daily" →
            ∀ dim, is_all (getattr (slice v) dim) = false)
    [england "daily" (mkdate 2021 1 4) (Group_of "A") 60;
     england "weekly" (mkdate 2021 1 1) Group_ALL 100]
  ∧ add_deaggregates [england "daily" (mkdate 2021 1 4) (Group_of "A") 60;
                      england "weekly" (mkdate 2021 1 1) Group_ALL 100]
    = Ok ([], [england "daily" (mkdate 2021 1 4) (Group_of "A") 60;
               england "weekly" (mkdate 2021 1 1) Group_ALL 100]).
Proof.
  assert (Forall (λ v : Vaccinated number,
                    period (source v) = "daily" →
                    ∀ dim, is_all (getattr (slice v) dim) = false)
            [england "daily" (mkdate 2021 1 4) (Group_of "A") 60;
             england "weekly" (mkdate 2021 1 1) Group_ALL 100]) as Hnone.
  { repeat constructor.
    - intros _ dim. by destruct dim.
    - intros Hdaily. discriminate Hdaily. }
  split; [exact Hnone |].
  exact (add_deaggregates_no_aggregate _ Hnone).
Defined.

Lemma deaggregate_single_date_raises_witness :
  (2 ≤ length (vaccinated_weekly_of (daily_aggregate 100) dim_group
                 one_week_input))%nat
  ∧ (∀ d, d ∈ real_dates (vaccinated_weekly_of (daily_aggregate 100) dim_group
                            one_week_input) → d = mkdate 2021 1 1)
  ∧ deaggregate_with_interpolation (daily_aggregate 100) dim_group
      one_week_input
    = Raise IndexError.
Proof.
  assert (2 ≤ length (vaccinated_weekly_of (daily_aggregate 100) dim_group
                        one_week_input))%nat as Hlen
    by (rewrite one_week_weekly; simpl; lia).
  assert (∀ d, d ∈ real_dates (vaccinated_weekly_of (daily_aggregate 100)
                                 dim_group one_week_input)
               → d = mkdate 2021 1 1) as Hone.
  { rewrite one_week_weekly. intros d Hd.
    apply elem_of_cons in Hd as [-> | Hd]; [done |].
    by apply list_elem_of_singleton in Hd as ->. }
  split; [exact Hlen |]. split; [exact Hone |].
  exact (proj1 (deaggregate_single_date_raises (daily_aggregate 100) dim_group
                  one_week_input (mkdate 2021 1 1) Hlen Hone)).
Defined.

(** On [regions_input] the aggregate over the locations is split into
    England = 53 and Wales = 46, and [remove_aggregates] drops both. *)
Lemma remove_aggregates_of_deaggregates_witness :
  deaggregate_with_interpolation
    (region "daily" (mkdate 2021 1 4) Location_ALL 100) dim_location
    regions_input
  = Ok ([],
        [mkVaccinated
           (mkSource "report" (mkdate 2021 1 4) (mkdate 2021 1 4) "daily")
           (Int 53)
           (mkSlice DOSE_1 (Group_of "over80") (Location_of "England"))
           false true;
         mkVaccinated
           (mkSource "report" (mkdate 2021 1 4) (mkdate 2021 1 4) "daily")
           (Int 46)
           (mkSlice DOSE_1 (Group_of "over80") (Location_of "Wales"))
           false true])
  ∧ remove_aggregates
      [mkVaccinated
         (mkSource "report" (mkdate 2021 1 4) (mkdate 2021 1 4) "daily")
         (Int 53)
         (mkSlice DOSE_1 (Group_of "over80") (Location_of "England"))
         false true;
       mkVaccinated
         (mkSource "report" (mkdate 2021 1 4) (mkdate 2021 1 4) "daily")
         (Int 46)
         (mkSlice DOSE_1 (Group_of "over80") (Location_of "Wales"))
         false true]
    = [].
Proof.
  assert (deaggregate_with_interpolation
            (region "daily" (mkdate 2021 1 4) Location_ALL 100) dim_location
            regions_input
          = Ok ([],
                [mkVaccinated
                   (mkSource "report" (mkdate 2021 1 4) (mkdate 2021 1 4)
                      "daily")
                   (Int 53)
                   (mkSlice DOSE_1 (Group_of "over80") (Location_of "England"))
                   false true;
                 mkVaccinated
                   (mkSource "report" (mkdate 2021 1 4) (mkdate 2021 1 4)
                      "daily")
                   (Int 46)
                   (mkSlice DOSE_1 (Group_of "over80") (Location_of "Wales"))
                   false true])) as Hok
    by (vm_compute; reflexivity).
  split; [exact Hok |].
  exact (proj1 (remove_aggregates_of_deaggregates _ regions_input) _ _ Hok).
Defined.

End deaggregates_python.

(** ** Forecasts of forecasts *)

Lemma bind_nil_all {A B} (f : A → list B) (l : list A) :
  (∀ x, x ∈ l → f x = []) → l ≫= f = [].
Proof.
  induction l as [| x l IH]; intros Hf; [done |].
  rewrite bind_cons, Hf by apply list_elem_of_here.
  apply IH. intros y Hy. by apply Hf, list_elem_of_further.
Qed.

Section forecasts_again.
Context `{Arith} `{SetOrder} `{!Polyfit}.

(** Of the 51 forecasts of a slice, only the last is dated in the 7 days
    that end 51 weeks after [max_date]. *)
Lemma trailing_week_predictions (max_date : date) (slice_ : Slice) (m b : num) :
  filter (λ v, max_date + 7 * 51 - 6 ≤ real_date (source v)
               ≤ max_date + 7 * 51)
    (prediction max_date slice_ m b <$> (Z.of_nat <$> seq 1 51))
  = [prediction max_date slice_ m b 51].
Proof.
  rewrite filter_fmap.
  rewrite (list_filter_iff _ (λ k, k = 51)).
  - vm_compute. reflexivity.
  - intros k. simpl. lia.
Qed.

(** Applied to its own result, [add_extrapolations] adds nothing: when it
    made forecasts, the latest date is 51 weeks later, and no slice has two
    observations in the 7 days that end there. *)
Theorem add_extrapolations_again (input output : list (Vaccinated num)) :
  add_extrapolations input = Ok output →
  add_extrapolations output = Ok output.
Proof.
  intros Hok.
  assert (input ≠ []) as Hne by (intros ->; discriminate Hok).
  destruct (max_of_nonempty (real_dates input)) as (max_date & _ & Hmax);
    [by intros ?%fmap_nil_inv |].
  destruct (add_extrapolations_slices input max_date Hmax)
    as (forecast & Heq & Hfew & Hmany).
  rewrite Heq in Hok. injection Hok as <-.
  set (slices := set_iter (slice <$> input)) in *.
  assert (∀ s, forecast s = []
               ∨ ∃ m b, forecast s
                        = prediction max_date s m b
                            <$> (Z.of_nat <$> seq 1 51)) as Hforecast.
  { intros s.
    destruct (le_lt_dec 2 (length (trailing_points input max_date s)))
      as [Hlen | Hlen].
    - right. destruct (Hmany s Hlen) as (m & b & _ & Hs & _). eauto.
    - left. by apply Hfew. }
  destruct (slices ≫= forecast) as [| p ps] eqn:Hpredictions.
  { rewrite app_nil_r. by rewrite Heq, ?Hpredictions, app_nil_r. }
  rewrite <- Hpredictions. clear Heq.
  assert (∀ v, v ∈ slices ≫= forecast →
               ∃ s m b k, s ∈ slices ∧ 1 ≤ k ≤ 51
                          ∧ v = prediction max_date s m b k) as Hshape.
  { intros v (s & Hv & Hs)%list_elem_of_bind.
    destruct (Hforecast s) as [Hnil | (m & b & Hs')].
    - rewrite Hnil in Hv. by apply not_elem_of_nil in Hv.
    - rewrite Hs' in Hv.
      apply list_elem_of_fmap in Hv as (k & -> & Hk).
      apply list_elem_of_fmap in Hk as (n & -> & Hn).
      apply elem_of_seq in Hn. exists s, m, b, (Z.of_nat n).
      split_and!; [done | lia | lia | done]. }
  assert (latest (max_date + 7 * 51)
            (real_dates (input ++ (slices ≫= forecast)))) as Hmax'.
  { destruct Hmax as [_ Hle]. split.
    - assert (p ∈ slices ≫= forecast) as Hp
        by (rewrite Hpredictions; apply list_elem_of_here).
      apply list_elem_of_bind in Hp as (s & Hp & Hs).
      destruct (Hforecast s) as [Hnil | (m & b & Hs')].
      { rewrite Hnil in Hp. by apply not_elem_of_nil in Hp. }
      apply list_elem_of_fmap. exists (prediction max_date s m b 51).
      split; [done |]. apply elem_of_app. right.
      apply list_elem_of_bind. exists s. split; [| done].
      rewrite Hs'. apply list_elem_of_fmap. exists 51. split; [done |].
      apply list_elem_of_fmap. exists 51%nat. split; [done |].
      apply elem_of_seq. lia.
    - intros d (v & -> & Hv)%list_elem_of_fmap.
      apply elem_of_app in Hv as [Hv | Hv].
      + assert (real_date (source v) ≤ max_date)
          by (apply Hle, list_elem_of_fmap; eauto).
        lia.
      + destruct (Hshape v Hv) as (s & m & b & k & _ & Hk & ->). simpl. lia. }
  destruct (add_extrapolations_slices _ _ Hmax')
    as (forecast' & -> & Hfew' & _).
  rewrite (bind_nil_all forecast'); [by rewrite app_nil_r |].
  intros s _. apply Hfew'. clear Hfew'.
  unfold trailing_points, trailing_week. rewrite length_fmap.
  rewrite (list_filter_iff _
             (λ v, max_date + 7 * 51 - 6 ≤ real_date (source v)
                   ≤ max_date + 7 * 51
                   ∧ slice v = s)) by (intros v; tauto).
  rewrite <- (list_filter_filter
                (λ v, max_date + 7 * 51 - 6 ≤ real_date (source v)
                      ≤ max_date + 7 * 51)
                (λ v, slice v = s)).
  rewrite filter_app.
  rewrite (filter_bind_group slice forecast slices s).
  - rewrite filter_app.
    rewrite (filter_none _ (filter _ input)).
    + simpl. destruct (decide (s ∈ slices)); [| simpl; lia].
      destruct (Hforecast s) as [-> | (m & b & ->)]; [simpl; lia |].
      rewrite trailing_week_predictions. simpl. lia.
    + apply Forall_forall. intros v [_ Hv]%list_elem_of_filter.
      destruct Hmax as [_ Hle].
      assert (real_date (source v) ≤ max_date)
        by (apply Hle, list_elem_of_fmap; eauto).
      lia.
  - apply set_iter_NoDup.
  - intros s' v Hv.
    destruct (Hforecast s') as [Hnil | (m & b & Hs')].
    + rewrite Hnil in Hv. by apply not_elem_of_nil in Hv.
    + rewrite Hs' in Hv. by apply list_elem_of_fmap in Hv as (k & -> & _).
Qed.

End forecasts_again.

Section forecasts_again_python.
Local Existing Instance python_arith.
Local Existing Instance insertion_order.
Local Existing Instance closed_form_polyfit.

Lemma add_extrapolations_again_witness :
  ∃ output,
    add_extrapolations forecast_input = Ok output
    ∧ length output = 53%nat
    ∧ add_extrapolations output = Ok output.
Proof.
  eexists. split; [vm_compute; reflexivity |].
  split; [reflexivity |].
  apply (add_extrapolations_again forecast_input).
  vm_compute. reflexivity.
Defined.

End forecasts_again_python.

(** ** The dose-2 wait, applied again *)

Section dose_wait_again.
Context `{Arith}.

Lemma add_dose_2_wait_latest (input : list (Vaccinated num)) (max_date : date) :
  latest max_date (non_extrapolated_dates input) →
  add_dose_2_wait input
  = Ok (input
        ++ (dose_2_wait_of max_date
              <$> filter (λ v, dose (slice v) = DOSE_2) input)).
Proof.
  intros Hmax. unfold add_dose_2_wait.
  fold (non_extrapolated_dates input). rewrite (max_of_latest _ _ Hmax).
  rewrite result_bind_Ok. do 2 f_equal. clear Hmax.
  induction input as [| v input IH]; [done |].
  rewrite bind_cons, filter_cons, IH.
  destruct (decide (dose (slice v) = DOSE_2)) as [Hd | Hd].
  - by rewrite decide_False by (intros Hne; by destruct Hne).
  - by rewrite decide_True.
Qed.

(** [add_dose_2_wait] is not to be applied twice: the observations it adds
    are of dose [DOSE_2_PLUS_WAIT], so none of them is shifted again, and
    those that are not extrapolated are dated on or before the latest date,
    which stays; a second application adds the same observations once
    more. *)
Theorem add_dose_2_wait_again (input output : list (Vaccinated num)) :
  add_dose_2_wait input = Ok output →
  ∃ waits,
    output = input ++ waits
    ∧ Forall (λ v, dose (slice v) = DOSE_2_PLUS_WAIT) waits
    ∧ length waits = length (filter (λ v, dose (slice v) = DOSE_2) input)
    ∧ add_dose_2_wait output = Ok (output ++ waits).
Proof.
  intros Hok.
  assert (non_extrapolated_dates input ≠ []) as Hne.
  { intros Hnil. unfold add_dose_2_wait in Hok.
    fold (non_extrapolated_dates input) in Hok. by rewrite Hnil in Hok. }
  destruct (max_of_nonempty _ Hne) as (max_date & _ & Hmax).
  rewrite (add_dose_2_wait_latest _ _ Hmax) in Hok. injection Hok as <-.
  set (waits := dose_2_wait_of max_date
                  <$> filter (λ v, dose (slice v) = DOSE_2) input).
  exists waits. split_and!.
  - done.
  - apply Forall_fmap, Forall_forall. by intros v _.
  - unfold waits. by rewrite length_fmap.
  - assert (latest max_date (non_extrapolated_dates (input ++ waits)))
      as Hmax'.
    { destruct Hmax as [Hin Hle]. unfold non_extrapolated_dates in *.
      rewrite filter_app, fmap_app. split.
      - apply elem_of_app. by left.
      - intros d [Hd | Hd]%elem_of_app; [by apply Hle |].
        apply list_elem_of_fmap in Hd as (w & -> & Hw).
        apply list_elem_of_filter in Hw as [Hflag Hw].
        apply list_elem_of_fmap in Hw as (v & -> & _).
        simpl in *. apply bool_decide_eq_false in Hflag.
        unfold timedelta_days in *. lia. }
    rewrite (add_dose_2_wait_latest _ _ Hmax'). do 2 f_equal.
    rewrite filter_app, fmap_app.
    rewrite (filter_none _ waits); [by rewrite app_nil_r |].
    apply Forall_fmap, Forall_forall. by intros v _.
Qed.

End dose_wait_again.

Section dose_wait_again_python.
Local Existing Instance python_arith.

Lemma add_dose_2_wait_again_witness :
  ∃ output waits,
    add_dose_2_wait wait_input = Ok output
    ∧ output = wait_input ++ waits
    ∧ length waits = 2%nat
    ∧ add_dose_2_wait output = Ok (output ++ waits).
Proof.
  assert (∃ output, add_dose_2_wait wait_input = Ok output) as [output Hok]
    by (eexists; vm_compute; reflexivity).
  destruct (add_dose_2_wait_again wait_input output Hok)
    as (waits & Hout & _ & Hlen & Hagain).
  exists output, waits. split_and!; [exact Hok | exact Hout | | exact Hagain].
  rewrite Hlen. reflexivity.
Defined.

End dose_wait_again_python.

(** ** Deaggregation in exact arithmetic: nothing is added to the aggregate *)

Section conservation.
Local Existing Instance exact_arith.
Context `{SetOrder}.
Local Abbreviation qsum := (@sum exact_arith).















End conservation.

Section conservation_exact.
Local Existing Instance exact_arith.
Local Existing Instance insertion_order.


End conservation_exact.

Section forecasts_added.
Context `{Arith} `{SetOrder} `{!Polyfit}.



End forecasts_added.

Section forecasts_added_python.
Local Existing Instance python_arith.
Local Existing Instance insertion_order.
Local Existing Instance closed_form_polyfit.


End forecasts_added_python.

(** ** The order of the sets *)

(** Two lists of the same elements in strictly ascending order of a key are
    the same list. *)
Lemma StronglySorted_lt_unique {A} (key : A → Z) (l1 l2 : list A) :
  l1 ≡ₚ l2 →
  StronglySorted (λ a b, key a < key b) l1 →
  StronglySorted (λ a b, key a < key b) l2 →
  l1 = l2.
Proof.
  revert l2. induction l1 as [| a l1 IH]; intros l2 Hperm H1 H2.
  { by apply Permutation_nil in Hperm. }
  destruct l2 as [| b l2].
  { symmetry in Hperm. by apply Permutation_nil in Hperm. }
  apply StronglySorted_inv in H1 as [H1 Ha].
  apply StronglySorted_inv in H2 as [H2 Hb].
  assert (a = b) as ->.
  { assert (a ∈ b :: l2) as Hin
      by (rewrite <- Hperm; apply list_elem_of_here).
    assert (b ∈ a :: l1) as Hin'
      by (rewrite Hperm; apply list_elem_of_here).
    apply elem_of_cons in Hin as [-> | Hin]; [done |].
    apply elem_of_cons in Hin' as [-> | Hin']; [done |].
    pose proof (proj1 (Forall_forall _ _) Hb a Hin) as Hba.
    pose proof (proj1 (Forall_forall _ _) Ha b Hin') as Hab.
    simpl in Hba, Hab. lia. }
  f_equal. apply IH; [by apply Permutation_cons_inv in Hperm | done | done].
Qed.

Lemma Sorted_le_injective {A} (key : A → Z) (l : list A) :
  Sorted Z.le (key <$> l) → NoDup (key <$> l) →
  StronglySorted (λ a b, key a < key b) l.
Proof.
  intros Hsorted%Sorted_StronglySorted; [| intros x y z; lia].
  induction l as [| a l IH]; intros Hnd; [constructor |].
  rewrite fmap_cons in Hsorted, Hnd.
  apply StronglySorted_inv in Hsorted as [Hsorted Ha].
  apply NoDup_cons in Hnd as [Hnin Hnd].
  constructor; [by apply IH |].
  apply Forall_forall. intros b Hb.
  assert (key b ∈ key <$> l) as Hkb by (apply list_elem_of_fmap; eauto).
  pose proof (proj1 (Forall_forall _ _) Ha _ Hkb) as Hab. simpl in Hab.
  assert (key a ≠ key b) by (intros Heq; by rewrite Heq in Hnin). lia.
Qed.

(** Sorting by a key that tells the elements apart gives one result for
    every order of the elements. *)
Lemma sorted_unique {A} (key : A → Z) (l1 l2 : list A) :
  l1 ≡ₚ l2 → NoDup l1 →
  (∀ x y, x ∈ l1 → y ∈ l1 → key x = key y → x = y) →
  sorted key l1 = sorted key l2.
Proof.
  intros Hperm Hnd Hinj.
  assert (NoDup (key <$> l1)) as Hkeys by (by apply NoDup_fmap_2_strong).
  apply (StronglySorted_lt_unique key).
  - by rewrite !sorted_Permutation.
  - apply Sorted_le_injective; [apply sorted_Sorted |].
    by rewrite sorted_Permutation.
  - apply Sorted_le_injective; [apply sorted_Sorted |].
    by rewrite sorted_Permutation, <- Hperm.
Qed.

(** A generator run on the same elements in another order yields the same
    things in another order, when it returns. *)
Lemma yield_each_Permutation {A B} (f : A → result B) (l1 l2 : list A)
    (ys1 : list B) :
  l1 ≡ₚ l2 → yield_each f l1 = Ok ys1 →
  ∃ ys2, yield_each f l2 = Ok ys2 ∧ ys1 ≡ₚ ys2.
Proof.
  intros Hperm. revert ys1.
  induction Hperm as [| x l1 l2 _ IH | x y l | l1 l2 l3 _ IH1 _ IH2];
    intros ys1 Hys.
  - exists ys1. by split.
  - simpl in *. destruct (f x) as [b |]; [| done]. simpl in *.
    destruct (yield_each f l1) as [ys |]; [| done]. injection Hys as <-.
    destruct (IH ys eq_refl) as (ys2 & -> & Hys2).
    exists (b :: ys2). split; [done | by constructor].
  - simpl in *. destruct (f y) as [b |]; [| done]. simpl in *.
    destruct (f x) as [a |]; [| done]. simpl in *.
    destruct (yield_each f l) as [ys |]; [| done]. injection Hys as <-.
    exists (a :: b :: ys). split; [done | apply perm_swap].
  - destruct (IH1 ys1 Hys) as (ys2 & Hys2 & Hp1).
    destruct (IH2 ys2 Hys2) as (ys3 & Hys3 & Hp2).
    exists ys3. split; [done | by etrans].
Qed.

Section orders.
Context `{Arith} (order1 order2 : SetOrder).

Lemma set_iter_Permutation {A} `{EqDecision A} (l : list A) :
  @set_iter order1 A _ l ≡ₚ @set_iter order2 A _ l.
Proof.
  apply NoDup_Permutation; [apply set_iter_NoDup | apply set_iter_NoDup |].
  intros x. by rewrite !set_iter_elem.
Qed.

(** When no two dates of the matching weekly samples are equally far from
    the aggregate's real date, what the deaggregator returns does not depend
    on the order in which Python iterates its sets, but for the order of
    the observations yielded. *)
Lemma deaggregate_orders (aggregate : Vaccinated num) (dim : Dim)
    (input : list (Vaccinated num)) printed yielded :
  (∀ d d',
     d ∈ real_dates (vaccinated_weekly_of aggregate dim input) →
     d' ∈ real_dates (vaccinated_weekly_of aggregate dim input) →
     Z.abs (d - real_date (source aggregate))
     = Z.abs (d' - real_date (source aggregate)) →
     d = d') →
  @deaggregate_with_interpolation _ order1 aggregate dim input
  = Ok (printed, yielded) →
  ∃ yielded',
    @deaggregate_with_interpolation _ order2 aggregate dim input
    = Ok (printed, yielded')
    ∧ yielded ≡ₚ yielded'.
Proof.
  intros Hinj. unfold deaggregate_with_interpolation. cbv zeta.
  destruct (length _ <? 2)%nat.
  { intros [= <- <-]. by exists []. }
  fold (real_dates (vaccinated_weekly_of aggregate dim input)).
  rewrite <- (sorted_unique _ _ _
                (set_iter_Permutation
                   (real_dates (vaccinated_weekly_of aggregate dim input)))).
  - intros Hok.
    destruct (yield_each _ (@set_iter order1 _ _ _)) as [ys |] eqn:Hys;
      [| done].
    injection Hok as <- <-.
    destruct (yield_each_Permutation _ _ _ _
                (set_iter_Permutation _) Hys) as (ys2 & -> & Hperm).
    by exists ys2.
  - apply set_iter_NoDup.
  - intros d d' Hd Hd'. rewrite set_iter_elem in Hd, Hd'. by apply Hinj.
Qed.

End orders.

(** When no two dates of the matching weekly samples are equally far from
    the aggregate's real date, what the deaggregator returns does not depend
    on the order in which the sets are iterated, but for the order of the
    observations yielded.  With such a tie it does: on [tie_input] the
    samples of 2021-01-01 and 2021-01-07 are both 3 days from the aggregate,
    and one order of the set of dates gives A = 45 and B = 55, its reverse
    A = 42 and B = 57. *)
Theorem deaggregate_order_independent :
  (∀ (A : Arith) (order1 order2 : SetOrder) (aggregate : Vaccinated num)
     dim input printed yielded,
     (∀ d d',
        d ∈ real_dates (vaccinated_weekly_of aggregate dim input) →
        d' ∈ real_dates (vaccinated_weekly_of aggregate dim input) →
        Z.abs (d - real_date (source aggregate))
        = Z.abs (d' - real_date (source aggregate)) →
        d = d') →
     @deaggregate_with_interpolation A order1 aggregate dim input
     = Ok (printed, yielded) →
     ∃ yielded',
       @deaggregate_with_interpolation A order2 aggregate dim input
       = Ok (printed, yielded')
       ∧ yielded ≡ₚ yielded')
  ∧ @deaggregate_with_interpolation python_arith insertion_order
      (daily_aggregate 100) dim_group tie_input
    = Ok ([],
          [mkVaccinated (source (@daily_aggregate python_arith 100)) (Int 45)
             (mkSlice DOSE_1 (Group_of "A") Location_ALL) false true;
           mkVaccinated (source (@daily_aggregate python_arith 100)) (Int 55)
             (mkSlice DOSE_1 (Group_of "B") Location_ALL) false true])
  ∧ @deaggregate_with_interpolation python_arith reverse_order
      (daily_aggregate 100) dim_group tie_input
    = Ok ([],
          [mkVaccinated (source (@daily_aggregate python_arith 100)) (Int 57)
             (mkSlice DOSE_1 (Group_of "B") Location_ALL) false true;
           mkVaccinated (source (@daily_aggregate python_arith 100)) (Int 42)
             (mkSlice DOSE_1 (Group_of "A") Location_ALL) false true]).
Proof.
  split_and!.
  - intros A order1 order2 aggregate dim input printed yielded.
    apply deaggregate_orders.
  - vm_compute. reflexivity.
  - vm_compute. reflexivity.
Qed.

Section orders_python.
Local Existing Instance python_arith.

Lemma deaggregate_order_independent_witness :
  (∀ d d',
     d ∈ real_dates (vaccinated_weekly_of (daily_aggregate 100) dim_group
                       interpolation_input) →
     d' ∈ real_dates (vaccinated_weekly_of (daily_aggregate 100) dim_group
                        interpolation_input) →
     Z.abs (d - mkdate 2021 1 4) = Z.abs (d' - mkdate 2021 1 4) →
     d = d')
  ∧ ∃ yielded yielded',
      @deaggregate_with_interpolation _ insertion_order (daily_aggregate 100)
        dim_group interpolation_input
      = Ok ([], yielded)
      ∧ @deaggregate_with_interpolation _ reverse_order (daily_aggregate 100)
          dim_group interpolation_input
        = Ok ([], yielded')
      ∧ yielded ≡ₚ yielded'.
Proof.
  assert (∀ d d',
            d ∈ real_dates (vaccinated_weekly_of (daily_aggregate 100)
                              dim_group interpolation_input) →
            d' ∈ real_dates (vaccinated_weekly_of (daily_aggregate 100)
                               dim_group interpolation_input) →
            Z.abs (d - mkdate 2021 1 4) = Z.abs (d' - mkdate 2021 1 4) →
            d = d') as Hinj.
  { rewrite interpolation_weekly. intros d d' Hd Hd'.
    change (real_dates _)
      with [mkdate 2021 1 1; mkdate 2021 1 1; mkdate 2021 1 8; mkdate 2021 1 8]
      in Hd, Hd'.
    rewrite !elem_of_cons, elem_of_nil in Hd, Hd'.
    change (mkdate 2021 1 1) with 737791 in *.
    change (mkdate 2021 1 8) with 737798 in *.
    change (mkdate 2021 1 4) with 737794. lia. }
  split; [exact Hinj |].
  assert (∃ yielded,
            @deaggregate_with_interpolation _ insertion_order
              (daily_aggregate 100) dim_group interpolation_input
            = Ok ([], yielded)) as [yielded Hok]
    by (eexists; vm_compute; reflexivity).
  destruct (proj1 deaggregate_order_independent python_arith insertion_order
              reverse_order (daily_aggregate 100) dim_group
              interpolation_input [] yielded Hinj Hok)
    as (yielded' & Hok' & Hperm).
  exists yielded, yielded'. split; [exact Hok |]. split; [exact Hok' | exact Hperm].
Defined.

End orders_python.
